(** * icns-to-png: the batch conversion loop and its summary

    A shallow embedding of [convert.py].  The script talks to three
    collaborators that are not part of the repository: the filesystem
    (through [pathlib]), the image library (PIL) and the terminal.  The
    first two are kept abstract in the class [Env]; the terminal is a
    list of input lines still to be typed and a list of the lines printed
    so far.  Every function of the script becomes a computation in a small
    monad that threads this world and carries Python's raised exceptions. *)

From Stdlib Require Import List String Ascii Bool Arith ZArith QArith Lia.
From Stdlib Require Import Permutation Sorted.
Import ListNotations.

Close Scope Q_scope.
Local Open Scope string_scope.
Local Open Scope list_scope.
Local Open Scope Z_scope.

Set Implicit Arguments.

(** ** Strings: the few [str] and [pathlib] methods the script calls *)

Module Str.

(** [str.lower], on the ASCII range.  The script only ever compares a
    lowered string with ASCII literals (['.icns'], ['q'], ['quit']) and
    no character outside ASCII lowers to a character of those. *)
Definition lower_ascii (c : ascii) : ascii :=
  let n := nat_of_ascii c in
  if ((65 <=? n) && (n <=? 90))%nat then ascii_of_nat (n + 32) else c.

Fixpoint lower (s : string) : string :=
  match s with
  | EmptyString => EmptyString
  | String c s' => String (lower_ascii c) (lower s')
  end.

(** A [str] is kept as the bytes of its UTF-8 encoding.  [str.strip]
    removes the characters for which [str.isspace] holds; they take one,
    two or three bytes.  One byte: U+0009 to U+000D and U+001C to
    U+0020. *)
Definition is_space (c : ascii) : bool :=
  let n := nat_of_ascii c in
  (((9 <=? n) && (n <=? 13)) || ((28 <=? n) && (n <=? 32)))%nat.

(** Two bytes: U+0085 and U+00A0. *)
Definition is_space2 (a b : ascii) : bool :=
  let m := nat_of_ascii a in
  let n := nat_of_ascii b in
  ((m =? 194) && ((n =? 133) || (n =? 160)))%nat.

(** Three bytes: U+1680, U+2000 to U+200A, U+2028, U+2029, U+202F,
    U+205F and U+3000. *)
Definition is_space3 (a b c : ascii) : bool :=
  let l := nat_of_ascii a in
  let m := nat_of_ascii b in
  let n := nat_of_ascii c in
  (((l =? 225) && (m =? 154) && (n =? 128))
   || ((l =? 226) && (m =? 128)
       && (((128 <=? n) && (n <=? 138)) || (n =? 168) || (n =? 169) || (n =? 175)))
   || ((l =? 226) && (m =? 129) && (n =? 159))
   || ((l =? 227) && (m =? 128) && (n =? 128)))%nat.

(** [str.lstrip]: whitespace characters are dropped from the front, one
    after the other, up to the first character that is none. *)
Fixpoint lstrip (s : string) : string :=
  match s with
  | EmptyString => EmptyString
  | String a s1 =>
      if is_space a then lstrip s1
      else
        match s1 with
        | EmptyString => s
        | String b s2 =>
            if is_space2 a b then lstrip s2
            else
              match s2 with
              | EmptyString => s
              | String c s3 => if is_space3 a b c then lstrip s3 else s
              end
        end
  end.

(** [str.rstrip]: a string that is whitespace throughout goes altogether;
    of any other its first byte stays and the rest is stripped in turn. *)
Fixpoint rstrip (s : string) : string :=
  match s with
  | EmptyString => EmptyString
  | String c s' =>
      match lstrip s with
      | EmptyString => EmptyString
      | String _ _ => String c (rstrip s')
      end
  end.

Definition strip (s : string) : string := rstrip (lstrip s).

(** [name.rfind('.')]: [None] stands for Python's [-1]. *)
Fixpoint rfind_dot (s : string) : option nat :=
  match s with
  | EmptyString => None
  | String c s' =>
      match rfind_dot s' with
      | Some i => Some (S i)
      | None => if Ascii.eqb c "." then Some O else None
      end
  end.

(** [PurePath.suffix]: the part of the name from its last dot on, when
    that dot is neither the first nor the last character. *)
Definition suffix (name : string) : string :=
  match rfind_dot name with
  | Some i =>
      if ((0 <? i) && (i <? String.length name - 1))%nat
      then substring i (String.length name - i) name
      else ""
  | None => ""
  end.

(** [PurePath.stem]: the name without that suffix. *)
Definition stem (name : string) : string :=
  match rfind_dot name with
  | Some i =>
      if ((0 <? i) && (i <? String.length name - 1))%nat
      then substring 0 i name
      else name
  | None => name
  end.

End Str.

(** ** Paths *)

(** The two folders next to the script. *)
Inductive dir := InputDir | OutputDir.

Record path := Path { parent : dir; name : string }.

(** ** What a call can raise *)

(** [Exception msg] is any instance of a subclass of [Exception], with
    [msg] its [str()].  The other two derive from [BaseException] only,
    so an [except Exception] clause lets them through. *)
Inductive raised :=
| Exception (msg : string)
| KeyboardInterrupt
| SystemExit (code : Z).

Inductive outcome (A : Type) :=
| Ret (a : A)
| Raise (e : raised).
Arguments Raise {A} e.

Definition is_exception (e : raised) : bool :=
  match e with Exception _ => true | _ => false end.

(** ** The terminal *)

Inductive arrow := Up | Down.
Inductive colour := Red | Green.

(** One constructor per [print] or [tqdm.write] of the script, carrying
    the values interpolated in its f-string. *)
Inductive line :=
| HeaderTitle
| HeaderAuthor
| Rule
| FormatPrompt
| Exiting
| NoIcnsFiles
| PressEnterReturn
| Found (n : nat)
| ErrorLine (filename cause : string)
| ConversionComplete
| FilesConverted (n : nat)
| FormatLine
| SizeSummary
| Original (total : Z)
| Converted (total : Z)
| Change (sign : arrow) (color : colour) (magnitude : Z)
| Top3Header
| Top3Entry (filename : string) (original converted : Z) (ratio : Q)
| ReadyNext
| PressEnterRestart.

(** ** One entry of [stats] *)

Record stat_entry := Stat {
  filename : string;
  original_size : Z;
  converted_size : Z
}.

(** ** The filesystem and the image library *)

Class Env := {
  FS : Type;                                        (* state of the disk *)
  Image : Type;                                     (* a PIL image object *)
  mkdir : dir -> FS -> FS * outcome unit;           (* Path.mkdir(exist_ok=True) *)
  iterdir : dir -> FS -> outcome (list string);     (* names listed by Path.iterdir *)
  is_file : path -> FS -> outcome bool;             (* Path.is_file *)
  st_size : path -> FS -> outcome Z;                (* Path.stat().st_size *)
  image_open : path -> FS -> outcome Image;         (* Image.open *)
  image_load : Image -> FS -> outcome Image;        (* img.load(), the loaded object *)
  image_mode : Image -> string;                     (* img.mode *)
  image_convert : Image -> string -> outcome Image; (* img.convert *)
  image_save : Image -> path -> FS -> FS * outcome unit (* img.save(_, "PNG", optimize=False) *)
}.

Section Script.

Context {E : Env}.

(** Calls made to the image library, in order. *)
Inductive call :=
| CallOpen (p : path)
| CallLoad (img : Image)
| CallConvert (img : Image) (mode : string)
| CallSave (img : Image) (p : path)
| CallClose (img : Image).

Record world := World {
  fs : FS;
  stdin : list string;      (* lines the operator has still to type *)
  stdout : list line;       (* lines printed so far *)
  pil : list call           (* image library calls so far *)
}.

(** *** The monad: a world in, a world out, and a value or a raise *)

Definition M (A : Type) := world -> world * outcome A.

Definition ret {A} (a : A) : M A := fun w => (w, Ret a).

Definition raise {A} (e : raised) : M A := fun w => (w, Raise e).

Definition bind {A B} (m : M A) (k : A -> M B) : M B :=
  fun w =>
    match m w with
    | (w', Ret a) => k a w'
    | (w', Raise e) => (w', Raise e)
    end.

(** [try: body except Exception as e: handler(str(e))] *)
Definition try_except {A} (body : M A) (handler : string -> M A) : M A :=
  fun w =>
    match body w with
    | (w', Raise (Exception msg)) => handler msg w'
    | r => r
    end.

(** [try: body finally: final] for a [final] that cannot raise; this is
    what leaving a [with] block does. *)
Definition finally {A} (body : M A) (final : M unit) : M A :=
  fun w =>
    match body w with
    | (w', r) => (fst (final w'), r)
    end.

Definition of_outcome {A} (o : outcome A) : M A := fun w => (w, o).

(** A call that only reads the disk. *)
Definition query {A} (q : FS -> outcome A) : M A :=
  fun w => (w, q (fs w)).

(** A call that may change the disk. *)
Definition action {A} (a : FS -> FS * outcome A) : M A :=
  fun w =>
    let (d, r) := a (fs w) in
    (World d (stdin w) (stdout w) (pil w), r).

Definition log (c : call) : M unit :=
  fun w => (World (fs w) (stdin w) (stdout w) (pil w ++ [c]), Ret tt).

(** [print(...)] and [tqdm.write(...)] *)
Definition print (l : line) : M unit :=
  fun w => (World (fs w) (stdin w) (stdout w ++ [l]) (pil w), Ret tt).

(** [input()]: the next line typed, [EOFError] when there is none. *)
Definition input : M string :=
  fun w =>
    match stdin w with
    | [] => (w, Raise (Exception "EOF when reading a line"))
    | l :: rest => (World (fs w) rest (stdout w) (pil w), Ret l)
    end.

End Script.

Declare Scope py_scope.
Delimit Scope py_scope with py.
Notation "x <- m ;; k" := (bind m (fun x => k))
  (at level 61, m at next level, right associativity) : py_scope.
Notation "m ;; k" := (bind m (fun _ => k))
  (at level 61, right associativity) : py_scope.

Local Open Scope py_scope.

Section Program.

Context {E : Env}.

(** [user_input in ('q', 'quit')] *)
Definition is_quit (s : string) : bool :=
  String.eqb s "q" || String.eqb s "quit".

(** [input().strip().lower()] *)
Definition input_choice : M string :=
  s <- input ;;
  ret (Str.lower (Str.strip s)).

Definition print_header : M unit :=
  print HeaderTitle ;;
  print HeaderAuthor ;;
  print Rule.

Definition ask_output_format : M string :=
  print FormatPrompt ;;
  user_input <- input_choice ;;
  if is_quit user_input
  then print Exiting ;; raise (SystemExit 0)
  else ret "png".

(** *** [convert_files], line 39: the files to convert *)

(** [f.is_file() and f.suffix.lower() == '.icns'] *)
Definition is_icns (f : path) : M bool :=
  b <- query (is_file f) ;;
  if b then ret (String.eqb (Str.lower (Str.suffix (name f))) ".icns")
  else ret false.

(** [[f for f in it if cond(f)]] *)
Fixpoint comprehension (cond : path -> M bool) (it : list path) : M (list path) :=
  match it with
  | [] => ret []
  | f :: rest =>
      b <- cond f ;;
      fs' <- comprehension cond rest ;;
      ret (if b then f :: fs' else fs')
  end.

Definition discover : M (list path) :=
  names <- query (iterdir InputDir) ;;
  comprehension is_icns (map (Path InputDir) names).

(** *** [convert_files], lines 59 to 71: the body of the [try] *)

(** [img.mode not in ("RGB", "RGBA")] *)
Definition needs_convert (img : Image) : bool :=
  negb (String.eqb (image_mode img) "RGB" || String.eqb (image_mode img) "RGBA").

Definition out_path_of (fp : path) : path :=
  Path OutputDir (Str.stem (name fp) ++ ".png").

(** Lines 61 to 65, inside the [with]. *)
Definition with_body (fp : path) (img : Image) : M unit :=
  log (CallLoad img) ;;
  img <- query (image_load img) ;;
  img <- (if needs_convert img
          then log (CallConvert img "RGBA") ;; of_outcome (image_convert img "RGBA")
          else ret img) ;;
  log (CallSave img (out_path_of fp)) ;;
  action (image_save img (out_path_of fp)).

Definition convert_one (fp : path) : M stat_entry :=
  orig_size <- query (st_size fp) ;;
  log (CallOpen fp) ;;
  img <- query (image_open fp) ;;
  finally (with_body fp img) (log (CallClose img)) ;;
  conv_size <- query (st_size (out_path_of fp)) ;;
  ret (Stat (name fp) orig_size conv_size).

(** *** [convert_files], lines 57 to 74: the loop *)

(** One turn: [stats] is the list as it stands, the result is the list
    after the turn.  [pbar.set_description] only redraws the bar. *)
Definition loop_body (fp : path) (stats : list stat_entry) : M (list stat_entry) :=
  try_except
    (s <- convert_one fp ;;
     ret (stats ++ [s]))
    (fun e =>
       print (ErrorLine (name fp) e) ;;
       ret stats).

Fixpoint for_loop (files : list path) (stats : list stat_entry) : M (list stat_entry) :=
  match files with
  | [] => ret stats
  | fp :: rest =>
      stats <- loop_body fp stats ;;
      for_loop rest stats
  end.

(** *** [convert_files] *)

(** Lines 36 to 39: the two folders, then the files found. *)
Definition list_files : M (list path) :=
  action (mkdir InputDir) ;;
  action (mkdir OutputDir) ;;
  discover.

(** [None] is Python's [None], [Some stats] the list returned at line 76. *)
Definition convert_files : M (option (list stat_entry)) :=
  files <- list_files ;;
  match files with
  | [] =>
      print NoIcnsFiles ;;
      print PressEnterReturn ;;
      choice <- input_choice ;;
      if is_quit choice
      then print Exiting ;; raise (SystemExit 0)
      else ret None
  | _ :: _ =>
      print (Found (List.length files)) ;;
      stats <- for_loop files [] ;;
      ret (Some stats)
  end.

(** *** [print_summary] *)

(** [sum(...)] over a generator: left to right from [0]. *)
Definition sum (l : list Z) : Z := fold_left Z.add l 0.

(** [sorted(l, key=key, reverse=True)].  Python's sort is stable, also
    with [reverse=True]: elements come out by decreasing key and elements
    with equal keys keep the order they have in [l].  [insert_desc] puts
    [x] in front of the first element whose key is not above its own. *)
Fixpoint insert_desc {A} (key : A -> Z) (x : A) (l : list A) : list A :=
  match l with
  | [] => [x]
  | y :: l' => if key x <? key y then y :: insert_desc key x l' else x :: l
  end.

Fixpoint sorted_reverse {A} (key : A -> Z) (l : list A) : list A :=
  match l with
  | [] => []
  | x :: l' => insert_desc key x (sorted_reverse key l')
  end.

(** Line 96; [l[:3]] is [firstn 3 l]. *)
Definition top3_of (stats : list stat_entry) : list stat_entry :=
  firstn 3 (sorted_reverse converted_size stats).

(** [a / b] on integers: the quotient as a number, [ZeroDivisionError]
    when [b] is [0].  The float Python rounds the quotient to is not
    modelled, the quotient is kept exact. *)
Definition truediv (a b : Z) : outcome Q :=
  if b =? 0 then Raise (Exception "division by zero")
  else Ret (inject_Z a / inject_Z b)%Q.

(** Line 99: an integer is true when it is not [0]. *)
Definition ratio_of (s : stat_entry) : outcome Q :=
  if negb (original_size s =? 0)
  then truediv (converted_size s) (original_size s)
  else Ret 1%Q.

(** Lines 98 to 101. *)
Fixpoint for_top3 (top3 : list stat_entry) : M unit :=
  match top3 with
  | [] => ret tt
  | s :: rest =>
      ratio <- of_outcome (ratio_of s) ;;
      print (Top3Entry (filename s) (original_size s) (converted_size s) ratio) ;;
      for_top3 rest
  end.

Definition print_summary (stats : list stat_entry) : M unit :=
  print ConversionComplete ;;
  print Rule ;;
  let total_orig := sum (map original_size stats) in
  let total_conv := sum (map converted_size stats) in
  print (FilesConverted (List.length stats)) ;;
  print FormatLine ;;
  print SizeSummary ;;
  print (Original total_orig) ;;
  print (Converted total_conv) ;;
  let delta := total_conv - total_orig in
  let sign := if 0 <? delta then Up else Down in
  let color := if 0 <? delta then Red else Green in
  print (Change sign color (Z.abs delta)) ;;
  match stats with
  | _ :: _ =>
      let top3 := top3_of stats in
      print Top3Header ;;
      for_top3 top3
  | [] => ret tt
  end.

(** *** [main] *)

(** How a turn of [while True] ends: [Continue] is line 110 or the end
    of the body, [Break] is line 120. *)
Inductive ctl := Continue | Break.

(** Lines 109 to 120, with [stats] what [convert_files] returned. *)
Definition after_convert (stats : option (list stat_entry)) : M ctl :=
  match stats with
  | None => ret Continue
  | Some stats =>
      match stats with
      | _ :: _ => print_summary stats
      | [] => ret tt
      end ;;
      print ReadyNext ;;
      print PressEnterRestart ;;
      choice <- input_choice ;;
      if is_quit choice
      then print Exiting ;; ret Break
      else ret Continue
  end.

(** Lines 105 to 120: one turn of the loop. *)
Definition main_turn : M ctl :=
  print_header ;;
  ask_output_format ;;
  stats <- convert_files ;;
  after_convert stats.

(** [while True]: at most [fuel] turns; [None] when they are used up. *)
Fixpoint main (fuel : nat) : M (option unit) :=
  match fuel with
  | O => ret None
  | S fuel' =>
      c <- main_turn ;;
      match c with
      | Continue => main fuel'
      | Break => ret (Some tt)
      end
  end.

End Program.

(** ** A small disk to run the script on *)

Module Toy.

(** A file of the input folder: [decoded] is the mode of the image in
    it and the size of its PNG encoding, [None] when PIL cannot read
    the file. *)
Record file := File {
  f_name : string;
  f_regular : bool;
  f_size : Z;
  f_decoded : option (string * Z)
}.

Record disk := Disk {
  input_folder : list file;
  output_folder : list (string * Z)
}.

Record image := Img { i_mode : string; i_png : Z }.

Definition find_input (n : string) (d : disk) : option file :=
  find (fun f => String.eqb (f_name f) n) (input_folder d).

Definition find_output (n : string) (d : disk) : option Z :=
  option_map snd (find (fun e => String.eqb (fst e) n) (output_folder d)).

Definition no_such_file {A} : outcome A :=
  Raise (Exception "No such file or directory").

Definition t_iterdir (p : dir) (d : disk) : outcome (list string) :=
  match p with
  | InputDir => Ret (map f_name (input_folder d))
  | OutputDir => Ret (map fst (output_folder d))
  end.

Definition t_is_file (p : path) (d : disk) : outcome bool :=
  match parent p with
  | InputDir =>
      match find_input (name p) d with
      | Some f => Ret (f_regular f)
      | None => Ret false
      end
  | OutputDir =>
      match find_output (name p) d with
      | Some _ => Ret true
      | None => Ret false
      end
  end.

Definition t_st_size (p : path) (d : disk) : outcome Z :=
  match parent p with
  | InputDir =>
      match find_input (name p) d with
      | Some f => Ret (f_size f)
      | None => no_such_file
      end
  | OutputDir =>
      match find_output (name p) d with
      | Some n => Ret n
      | None => no_such_file
      end
  end.

Definition t_open (p : path) (d : disk) : outcome image :=
  match parent p with
  | InputDir =>
      match find_input (name p) d with
      | Some f =>
          match f_decoded f with
          | Some (m, n) => Ret (Img m n)
          | None => Raise (Exception "cannot identify image file")
          end
      | None => no_such_file
      end
  | OutputDir => no_such_file
  end.

Definition t_save (img : image) (p : path) (d : disk) : disk * outcome unit :=
  match parent p with
  | OutputDir =>
      (Disk (input_folder d) ((name p, i_png img) :: output_folder d), Ret tt)
  | InputDir => (d, Raise (Exception "Permission denied"))
  end.

#[export] Instance env : Env := {|
  FS := disk;
  Image := image;
  mkdir := fun _ d => (d, Ret tt);
  iterdir := t_iterdir;
  is_file := t_is_file;
  st_size := t_st_size;
  image_open := t_open;
  image_load := fun img _ => Ret img;
  image_mode := i_mode;
  image_convert := fun img m => Ret (Img m (i_png img));
  image_save := t_save
|}.

Definition boot (files : list file) (typed : list string) : world :=
  World (Disk files []) typed [] [].

(** Two icons that convert (one is palette based), a corrupt one, a
    folder and a text file. *)
Definition sample : list file :=
  [ File "a.icns" true 100 (Some ("RGBA", 120));
    File "broken.ICNS" true 7 None;
    File "b.Icns" true 50 (Some ("P", 40));
    File "dir.icns" false 0 None;
    File "notes.txt" true 12 None ].

Definition start : world := boot sample [].

Definition a_icns : path := Path InputDir "a.icns".

Definition broken : path := Path InputDir "broken.ICNS".

Definition b_icns : path := Path InputDir "b.Icns".

(** Two icons that PIL cannot read. *)
Definition corrupt : list file :=
  [ File "x.icns" true 7 None;
    File "y.icns" true 9 None ].

(** The operator picks the format, then quits at the closing prompt. *)
Definition all_fail : world := boot corrupt ["1"; "q"].

(** Nothing to convert; the operator presses Enter. *)
Definition nothing_enter : world := boot [File "notes.txt" true 12 None] [""].

(** Nothing to convert; the operator quits. *)
Definition nothing_quit : world := boot [File "notes.txt" true 12 None] ["q"].

(** Five results, with ties among the converted sizes. *)
Definition five : list stat_entry :=
  [ Stat "a.icns" 10 5; Stat "b.icns" 10 7; Stat "c.icns" 10 5;
    Stat "d.icns" 10 7; Stat "e.icns" 0 9 ].

End Toy.

(** ** The same disk, with two faults to switch on *)

Module Faulty.

(** [folders_ok] is off when the two folders cannot be created;
    [ctrl_c_at] names the file during whose opening the operator presses
    Ctrl-C. *)
Record disk := Disk {
  base : Toy.disk;
  folders_ok : bool;
  ctrl_c_at : option string
}.

Definition f_mkdir (p : dir) (d : disk) : disk * outcome unit :=
  if folders_ok d then (d, Ret tt)
  else (d, Raise (Exception "Permission denied")).

Definition f_open (p : path) (d : disk) : outcome Toy.image :=
  match ctrl_c_at d with
  | Some n =>
      if String.eqb n (name p) then Raise KeyboardInterrupt
      else Toy.t_open p (base d)
  | None => Toy.t_open p (base d)
  end.

Definition f_save (img : Toy.image) (p : path) (d : disk) : disk * outcome unit :=
  let (b, r) := Toy.t_save img p (base d) in
  (Disk b (folders_ok d) (ctrl_c_at d), r).

#[export] Instance env : Env := {|
  FS := disk;
  Image := Toy.image;
  mkdir := f_mkdir;
  iterdir := fun p d => Toy.t_iterdir p (base d);
  is_file := fun p d => Toy.t_is_file p (base d);
  st_size := fun p d => Toy.t_st_size p (base d);
  image_open := f_open;
  image_load := fun img _ => Ret img;
  image_mode := Toy.i_mode;
  image_convert := fun img m => Ret (Toy.Img m (Toy.i_png img));
  image_save := f_save
|}.

Definition boot (files : list Toy.file) (ok : bool) (ctrl_c : option string)
    (typed : list string) : world :=
  World (Disk (Toy.Disk files []) ok ctrl_c) typed [] [].

(** The sample, with Ctrl-C pressed while the second icon is opened. *)
Definition interrupted : world := boot Toy.sample true (Some "broken.ICNS") [].

(** The sample, on a disk where the folders cannot be created. *)
Definition no_folders : world := boot Toy.sample false None ["1"; "q"].

End Faulty.

(** ** The same disk, keeping the images saved on it *)

Module Album.

(** [saved] lists what was handed to [save], newest first: the path and
    the image itself, mode included. *)
Record disk := Disk {
  base : Toy.disk;
  saved : list (path * Toy.image)
}.

Definition a_save (img : Toy.image) (p : path) (d : disk) : disk * outcome unit :=
  let (b, r) := Toy.t_save img p (base d) in
  (Disk b (match r with
           | Ret _ => (p, img) :: saved d
           | Raise _ => saved d
           end), r).

#[export] Instance env : Env := {|
  FS := disk;
  Image := Toy.image;
  mkdir := fun _ d => (d, Ret tt);
  iterdir := fun p d => Toy.t_iterdir p (base d);
  is_file := fun p d => Toy.t_is_file p (base d);
  st_size := fun p d => Toy.t_st_size p (base d);
  image_open := fun p d => Toy.t_open p (base d);
  image_load := fun img _ => Ret img;
  image_mode := Toy.i_mode;
  image_convert := fun img m => Ret (Toy.Img m (Toy.i_png img));
  image_save := a_save
|}.

Definition boot (files : list Toy.file) (typed : list string) : world :=
  World (Disk (Toy.Disk files []) []) typed [] [].

Definition start : world := boot Toy.sample [].

End Album.

(** * Vocabulary of the properties *)

(** ** Sorted, and stably so *)

Section SortingSpec.

Variable A : Type.
Variable key : A -> Z.

(** Keys never go up along the list. *)
Definition descending (l : list A) : Prop :=
  StronglySorted (fun a b => key b <= key a) l.

(** The elements of key [k], in the order they have in [l]. *)
Definition with_key (k : Z) (l : list A) : list A :=
  filter (fun x => key x =? k) l.

(** [s] keeps the elements of equal key in the order they have in [l]. *)
Definition ties_keep_order (l s : list A) : Prop :=
  forall k, with_key k s = with_key k l.

Definition stable_descending_sort (l s : list A) : Prop :=
  Permutation s l /\ descending s /\ ties_keep_order l s.

End SortingSpec.

(** ** The terminal, the loop and the listing, as observed *)

Section Vocabulary.

Context {E : Env}.

(** What a computation prints when run from [w]. *)
Definition emitted {A} (m : M A) (w : world) : list line :=
  skipn (List.length (stdout w)) (stdout (fst (m w))).

(** The image library calls a computation makes when run from [w]. *)
Definition called {A} (m : M A) (w : world) : list call :=
  skipn (List.length (pil w)) (pil (fst (m w))).

(** The same world with more lines on the terminal. *)
Definition printing (ls : list line) (w : world) : world :=
  World (fs w) (stdin w) (stdout w ++ ls) (pil w).

(** The entries of the top-3 report, in the order they are printed. *)
Definition top3_entries (ls : list line) : list stat_entry :=
  flat_map (fun l => match l with
                     | Top3Entry f o c _ => [Stat f o c]
                     | _ => []
                     end) ls.

(** The ratios of the top-3 report, each with the two sizes printed on
    its line. *)
Definition top3_ratios (ls : list line) : list (Z * Z * Q) :=
  flat_map (fun l => match l with
                     | Top3Entry _ o c r => [(o, c, r)]
                     | _ => []
                     end) ls.

(** The [Change] lines. *)
Definition changes (ls : list line) : list (arrow * colour * Z) :=
  flat_map (fun l => match l with
                     | Change s c m => [(s, c, m)]
                     | _ => []
                     end) ls.

(** The files reported as failed, each with the cause printed. *)
Definition errors (ls : list line) : list (string * string) :=
  flat_map (fun l => match l with
                     | ErrorLine f c => [(f, c)]
                     | _ => []
                     end) ls.

(** A line that only [print_summary] prints. *)
Definition is_summary_line (l : line) : bool :=
  match l with
  | ConversionComplete | FilesConverted _ | FormatLine | SizeSummary
  | Original _ | Converted _ | Change _ _ _ | Top3Header
  | Top3Entry _ _ _ _ => true
  | _ => false
  end.

(** The total of a size over the results, as the specification words it. *)
Fixpoint total (size : stat_entry -> Z) (stats : list stat_entry) : Z :=
  match stats with
  | [] => 0
  | s :: rest => size s + total size rest
  end.

(** The ratio of a result, as the specification words it. *)
Definition ratio_spec (s : stat_entry) : Q :=
  if original_size s =? 0 then 1%Q
  else (inject_Z (converted_size s) / inject_Z (original_size s))%Q.

Definition top3_line (s : stat_entry) : line :=
  Top3Entry (filename s) (original_size s) (converted_size s) (ratio_spec s).

(** The lines [print_summary] prints before the top-3 report. *)
Definition totals_lines (stats : list stat_entry) : list line :=
  let delta := total converted_size stats - total original_size stats in
  [ ConversionComplete; Rule; FilesConverted (List.length stats);
    FormatLine; SizeSummary;
    Original (total original_size stats);
    Converted (total converted_size stats);
    Change (if 0 <? delta then Up else Down)
           (if 0 <? delta then Red else Green) (Z.abs delta) ].

Definition top3_lines (stats : list stat_entry) : list line :=
  match stats with
  | [] => []
  | _ :: _ => Top3Header :: map top3_line (top3_of stats)
  end.

(** A computation is quiet when it leaves the terminal alone: nothing
    read, nothing printed. *)
Definition quiet {A} (m : M A) : Prop :=
  forall w, stdin (fst (m w)) = stdin w /\ stdout (fst (m w)) = stdout w.

(** The world in which the loop reaches the file at position [i]: the
    one the turns for the files before it leave. *)
Definition reached (files : list path) (i : nat) (w : world) : world :=
  fst (for_loop (firstn i files) [] w).

(** How the processing of each file ends, in the order of [files]. *)
Definition attempts (files : list path) (w : world) : list (outcome stat_entry) :=
  map (fun '(i, fp) => snd (convert_one fp (reached files i w)))
      (combine (seq 0 (List.length files)) files).

(** The results of the files whose processing returned. *)
Definition results_of (tried : list (outcome stat_entry)) : list stat_entry :=
  flat_map (fun o => match o with Ret s => [s] | Raise _ => [] end) tried.

(** The files whose processing raised an [Exception], with its text. *)
Definition failures (tried : list (path * outcome stat_entry)) : list (string * string) :=
  flat_map (fun '(fp, o) => match o with
                            | Raise (Exception msg) => [(name fp, msg)]
                            | _ => []
                            end) tried.

Definition error_line (e : string * string) : line :=
  ErrorLine (fst e) (snd e).

(** Processing ended with a result or with an [Exception]. *)
Definition ok_or_caught (o : outcome stat_entry) : Prop :=
  match o with
  | Ret _ => True
  | Raise e => is_exception e = true
  end.

(** [f] is a regular file on disk [d]. *)
Definition regular (d : FS) (f : path) : bool :=
  match is_file f d with
  | Ret b => b
  | Raise _ => false
  end.

(** The extension of [f], lowered, is [.icns]. *)
Definition icns_suffix (f : path) : bool :=
  String.eqb (Str.lower (Str.suffix (name f))) ".icns".

(** The code points Python counts as whitespace, those for which
    [str.isspace] holds: the controls U+0009 to U+000D and U+001C to
    U+001F, the space, U+0085, U+00A0, U+1680, U+2000 to U+200A, U+2028,
    U+2029, U+202F, U+205F and U+3000. *)
Definition whitespace_code_points : list N :=
  [ 9; 10; 11; 12; 13; 28; 29; 30; 31; 32; 133; 160; 5760;
    8192; 8193; 8194; 8195; 8196; 8197; 8198; 8199; 8200; 8201; 8202;
    8232; 8233; 8239; 8287; 12288 ]%N.

(** UTF-8 of a code point below U+10000. *)
Definition utf8 (cp : N) : string :=
  (if cp <? 128 then String (ascii_of_N cp) EmptyString
   else if cp <? 2048 then
     String (ascii_of_N (192 + cp / 64))
       (String (ascii_of_N (128 + cp mod 64)) EmptyString)
   else
     String (ascii_of_N (224 + cp / 4096))
       (String (ascii_of_N (128 + (cp / 64) mod 64))
          (String (ascii_of_N (128 + cp mod 64)) EmptyString)))%N.

(** The string of the characters [cps]. *)
Fixpoint encode (cps : list N) : string :=
  match cps with
  | [] => EmptyString
  | cp :: rest => (utf8 cp ++ encode rest)%string
  end.

(** An ASCII character that is no whitespace. *)
Definition plain_char (c : ascii) : bool :=
  negb (Str.is_space c) && (nat_of_ascii c <? 128)%nat.

Fixpoint plain (s : string) : bool :=
  match s with
  | EmptyString => true
  | String c s' => plain_char c && plain s'
  end.

(** A computation only adds to what the terminal shows. *)
Definition grows {A} (m : M A) : Prop :=
  forall w, exists ls, stdout (fst (m w)) = stdout w ++ ls.

(** The elements of [l] at the positions that [keep] marks, in order. *)
Fixpoint kept {A} (keep : list bool) (l : list A) : list A :=
  match keep, l with
  | true :: keep', x :: l' => x :: kept keep' l'
  | false :: keep', _ :: l' => kept keep' l'
  | _, _ => []
  end.

(** A call that opens or closes an image. *)
Definition opens_or_closes (c : call) : bool :=
  match c with
  | CallOpen _ | CallClose _ => true
  | _ => false
  end.

(** The image that processing [fp] on disk [d] hands to the encoder, if
    it gets that far: lines 59 to 63. *)
Definition encoder_input (fp : path) (d : FS) : option Image :=
  match st_size fp d, image_open fp d with
  | Ret _, Ret opened =>
      match image_load opened d with
      | Ret img =>
          if needs_convert img then
            match image_convert img "RGBA" with
            | Ret img' => Some img'
            | Raise _ => None
            end
          else Some img
      | Raise _ => None
      end
  | _, _ => None
  end.

(** The calls between the loading of an image and its closing, read off
    lines 62 to 65: [r] is what [img.load()] gave. *)
Definition calls_inside (fp : path) (r : outcome Image) : list call :=
  match r with
  | Raise _ => []
  | Ret img =>
      if needs_convert img then
        CallConvert img "RGBA"
        :: match image_convert img "RGBA" with
           | Ret img' => [CallSave img' (out_path_of fp)]
           | Raise _ => []
           end
      else [CallSave img (out_path_of fp)]
  end.

(** The calls that processing [fp] makes on disk [d], read off lines 59
    to 65. *)
Definition calls_of (fp : path) (d : FS) : list call :=
  match st_size fp d with
  | Raise _ => []
  | Ret _ =>
      CallOpen fp
      :: match image_open fp d with
         | Raise _ => []
         | Ret opened =>
             CallLoad opened
             :: calls_inside fp (image_load opened d) ++ [CallClose opened]
         end
  end.

End Vocabulary.

(** ** Sessions at the terminal *)

Module Sessions.

(** The word quit in mixed case, with U+3000 and a space before it and a
    tab and U+00A0 after it. *)
Definition padded_quit : string :=
  (encode [12288; 32]%N ++ "QuIt" ++ encode [9; 160]%N)%string.

(** Nothing to convert: a format, Enter, a format, then quit. *)
Definition nothing_twice : world :=
  Toy.boot [Toy.File "notes.txt" true 12 None] ["1"; ""; "1"; "q"].

(** Nothing to convert: a format, then quit, padded. *)
Definition nothing_then_quit : world :=
  Toy.boot [Toy.File "notes.txt" true 12 None] ["1"; padded_quit].

(** Two corrupt icons: a format, Enter at the closing prompt, then a
    format and quit at the closing prompt. *)
Definition corrupt_twice : world :=
  Toy.boot Toy.corrupt ["1"; ""; "1"; "q"].

(** The sample: quit, padded, typed at the format prompt. *)
Definition quit_at_once : world := Toy.boot Toy.sample [padded_quit].

(** The sample: a format, then quit, padded, at the closing prompt. *)
Definition quit_at_the_end : world := Toy.boot Toy.sample ["1"; padded_quit].

End Sessions.

(** * Properties *)

(** Unfolds the monad. *)
Ltac run :=
  unfold bind, finally, query, action, log, of_outcome, ret, raise in *;
  simpl in *.

(** ** What [sorted(..., reverse=True)] guarantees *)

Section Sorting.

Variable A : Type.
Variable key : A -> Z.

Lemma insert_desc_perm x l : Permutation (insert_desc key x l) (x :: l).
Proof.
  induction l as [|y l IH]; simpl; [reflexivity|].
  destruct (key x <? key y); [|reflexivity].
  rewrite IH. apply perm_swap.
Qed.

Lemma insert_desc_descending x l :
  descending key l -> descending key (insert_desc key x l).
Proof.
  unfold descending.
  induction l as [|y l IH]; simpl; intros Hs.
  - constructor; constructor.
  - apply StronglySorted_inv in Hs. destruct Hs as [Hl Hy].
    destruct (key x <? key y) eqn:Hxy.
    + apply Z.ltb_lt in Hxy. constructor; [now apply IH|].
      eapply Permutation_Forall; [symmetry; apply insert_desc_perm|].
      constructor; [lia|assumption].
    + apply Z.ltb_ge in Hxy. constructor.
      * constructor; assumption.
      * constructor; [assumption|].
        eapply Forall_impl; [|exact Hy]. simpl. intros; lia.
Qed.

Lemma insert_desc_with_key k x l :
  with_key key k (insert_desc key x l) = with_key key k (x :: l).
Proof.
  unfold with_key.
  induction l as [|y l IH]; simpl; [reflexivity|].
  destruct (key x <? key y) eqn:Hxy; [|reflexivity].
  apply Z.ltb_lt in Hxy. simpl. rewrite IH. simpl.
  destruct (key y =? k) eqn:Hy, (key x =? k) eqn:Hx; try reflexivity.
  apply Z.eqb_eq in Hy, Hx. lia.
Qed.

Lemma sorted_reverse_perm l : Permutation (sorted_reverse key l) l.
Proof.
  induction l as [|x l IH]; simpl; [constructor|].
  rewrite insert_desc_perm. now constructor.
Qed.

Lemma sorted_reverse_descending l : descending key (sorted_reverse key l).
Proof.
  induction l as [|x l IH]; simpl.
  - constructor.
  - now apply insert_desc_descending.
Qed.

Lemma sorted_reverse_ties l : ties_keep_order key l (sorted_reverse key l).
Proof.
  intros k. induction l as [|x l IH]; simpl; [reflexivity|].
  rewrite insert_desc_with_key. unfold with_key in *. simpl. now rewrite IH.
Qed.

Lemma sorted_reverse_stable l : stable_descending_sort key l (sorted_reverse key l).
Proof.
  repeat split.
  - apply sorted_reverse_perm.
  - apply sorted_reverse_descending.
  - apply sorted_reverse_ties.
Qed.

(** Two descending lists with the same elements of every key, in the
    same order, are the same list: whatever algorithm [sorted] runs,
    stability fixes its result. *)
Lemma descending_ties_unique s1 : forall s2,
  descending key s1 -> descending key s2 ->
  (forall k, with_key key k s1 = with_key key k s2) -> s1 = s2.
Proof.
  unfold descending, with_key.
  induction s1 as [|x s1 IH]; intros [|y s2] H1 H2 Hk.
  - reflexivity.
  - specialize (Hk (key y)). simpl in Hk. rewrite Z.eqb_refl in Hk. discriminate.
  - specialize (Hk (key x)). simpl in Hk. rewrite Z.eqb_refl in Hk. discriminate.
  - apply StronglySorted_inv in H1, H2.
    destruct H1 as [H1 Hx], H2 as [H2 Hy].
    rewrite Forall_forall in Hx, Hy.
    assert (Hle : key x <= key y).
    { pose proof (Hk (key x)) as Hkx. simpl in Hkx. rewrite Z.eqb_refl in Hkx.
      destruct (key y =? key x) eqn:Hyx; [apply Z.eqb_eq in Hyx; lia|].
      assert (Hin : In x (filter (fun z => key z =? key x) s2))
        by (rewrite <- Hkx; now left).
      apply filter_In in Hin. destruct Hin as [Hin _].
      apply Hy in Hin. exact Hin. }
    assert (Hge : key y <= key x).
    { pose proof (Hk (key y)) as Hky. simpl in Hky. rewrite Z.eqb_refl in Hky.
      destruct (key x =? key y) eqn:Hxy; [apply Z.eqb_eq in Hxy; lia|].
      assert (Hin : In y (filter (fun z => key z =? key y) s1))
        by (rewrite Hky; now left).
      apply filter_In in Hin. destruct Hin as [Hin _].
      apply Hx in Hin. exact Hin. }
    assert (Heq : key x = key y) by lia.
    assert (Hxy : x = y /\
                  filter (fun z => key z =? key x) s1
                  = filter (fun z => key z =? key x) s2).
    { pose proof (Hk (key x)) as Hkx. simpl in Hkx.
      rewrite Z.eqb_refl in Hkx. rewrite <- Heq, Z.eqb_refl in Hkx.
      now inversion Hkx. }
    destruct Hxy as [-> Htl]. f_equal.
    apply IH; try assumption.
    intros k. specialize (Hk k). simpl in Hk.
    destruct (key y =? k); [now inversion Hk | exact Hk].
Qed.

Lemma stable_descending_sort_unique l s :
  stable_descending_sort key l s -> s = sorted_reverse key l.
Proof.
  intros (_ & Hd & Ht).
  apply descending_ties_unique; [assumption|apply sorted_reverse_descending|].
  intros k. rewrite Ht. symmetry. apply sorted_reverse_ties.
Qed.

(** In a descending list every element of a prefix is at least every
    element that comes after the prefix. *)
Lemma descending_app l1 : forall l2,
  descending key (l1 ++ l2) ->
  forall a b, In a l1 -> In b l2 -> key b <= key a.
Proof.
  unfold descending.
  induction l1 as [|x l1 IH]; simpl; intros l2 Hs a b Ha Hb; [contradiction|].
  apply StronglySorted_inv in Hs. destruct Hs as [Hs Hx].
  destruct Ha as [->|Ha].
  - rewrite Forall_forall in Hx. apply Hx. apply in_or_app. now right.
  - eapply IH; eassumption.
Qed.

End Sorting.

(** ** Reading the terminal *)

Section Observations.

Context {E : Env}.

Lemma skipn_length_app {A} (l l' : list A) : skipn (List.length l) (l ++ l') = l'.
Proof. induction l; simpl; auto. Qed.

Lemma emitted_printing {A} (m : M A) w ls r :
  m w = (printing ls w, r) -> emitted m w = ls.
Proof.
  unfold emitted. intros ->. simpl. apply skipn_length_app.
Qed.

Lemma printing_nil w : printing [] w = w.
Proof. destruct w; unfold printing; simpl. now rewrite app_nil_r. Qed.

Lemma printing_printing ls ls' w :
  printing ls' (printing ls w) = printing (ls ++ ls') w.
Proof. unfold printing; simpl. now rewrite app_assoc. Qed.

Lemma print_run l w : print l w = (printing [l] w, Ret tt).
Proof. reflexivity. Qed.

End Observations.

(** ** The summary *)

Section Summary.

Context {E : Env}.

Lemma fold_left_add l : forall a, fold_left Z.add l a = a + fold_left Z.add l 0.
Proof.
  induction l as [|x l IH]; simpl; intros a; [lia|].
  rewrite IH, (IH x). lia.
Qed.

Lemma sum_map_total size stats : sum (map size stats) = total size stats.
Proof.
  unfold sum. induction stats as [|s rest IH]; simpl; [reflexivity|].
  rewrite fold_left_add, IH. reflexivity.
Qed.

Lemma ratio_of_spec s : ratio_of s = Ret (ratio_spec s).
Proof.
  unfold ratio_of, ratio_spec, truediv.
  destruct (original_size s =? 0); reflexivity.
Qed.

Lemma for_top3_run top3 : forall w,
  for_top3 top3 w = (printing (map top3_line top3) w, Ret tt).
Proof.
  induction top3 as [|s rest IH]; intros w; simpl.
  - unfold ret. now rewrite printing_nil.
  - unfold bind, of_outcome. rewrite ratio_of_spec. rewrite print_run, IH.
    now rewrite printing_printing.
Qed.

Lemma print_summary_run stats w :
  print_summary stats w
  = (printing (totals_lines stats ++ top3_lines stats) w, Ret tt).
Proof.
  unfold print_summary, totals_lines, top3_lines.
  rewrite !sum_map_total.
  unfold bind at 1. rewrite print_run.
  unfold bind at 1. rewrite print_run.
  unfold bind at 1. rewrite print_run.
  unfold bind at 1. rewrite print_run.
  unfold bind at 1. rewrite print_run.
  unfold bind at 1. rewrite print_run.
  unfold bind at 1. rewrite print_run.
  unfold bind at 1. rewrite print_run.
  rewrite !printing_printing. simpl app.
  destruct stats as [|s rest].
  - unfold ret. reflexivity.
  - unfold bind at 1. rewrite print_run, for_top3_run.
    rewrite !printing_printing. reflexivity.
Qed.

Lemma emitted_print_summary stats w :
  emitted (print_summary stats) w = totals_lines stats ++ top3_lines stats.
Proof. eapply emitted_printing, print_summary_run. Qed.

Lemma top3_entries_lines l : top3_entries (map top3_line l) = l.
Proof.
  induction l as [|[f o c] l IH]; simpl; [reflexivity|]. now rewrite IH.
Qed.

End Summary.

(** ** The conversion loop *)

Section Batch.

Context {E : Env}.

Lemma quiet_ret {A} (a : A) : quiet (ret a).
Proof. split; reflexivity. Qed.

Lemma quiet_of_outcome {A} (o : outcome A) : quiet (of_outcome o).
Proof. split; reflexivity. Qed.

Lemma quiet_query {A} (q : FS -> outcome A) : quiet (query q).
Proof. split; reflexivity. Qed.

Lemma quiet_action {A} (a : FS -> FS * outcome A) : quiet (action a).
Proof. intros w. unfold action. destruct (a (fs w)). split; reflexivity. Qed.

Lemma quiet_log c : quiet (log c).
Proof. split; reflexivity. Qed.

Lemma quiet_bind {A B} (m : M A) (k : A -> M B) :
  quiet m -> (forall a, quiet (k a)) -> quiet (bind m k).
Proof.
  intros Hm Hk w. unfold bind. specialize (Hm w).
  destruct (m w) as [w1 [a|e]]; simpl in *; [|assumption].
  destruct (Hk a w1) as [-> ->]. assumption.
Qed.

Lemma quiet_finally {A} (m : M A) (final : M unit) :
  quiet m -> quiet final -> quiet (finally m final).
Proof.
  intros Hm Hf w. unfold finally. specialize (Hm w).
  destruct (m w) as [w1 r]; simpl in *.
  destruct (Hf w1) as [-> ->]. assumption.
Qed.

Create HintDb quiet.
#[local] Hint Resolve quiet_ret quiet_of_outcome quiet_query quiet_action quiet_log
  quiet_bind quiet_finally : quiet.

(** Processing a file reads and writes the disk and calls the image
    library; it leaves the terminal alone. *)
Lemma with_body_quiet fp img : quiet (with_body fp img).
Proof.
  unfold with_body.
  apply quiet_bind; [auto with quiet|]. intros _.
  apply quiet_bind; [auto with quiet|]. intros img1.
  apply quiet_bind; [destruct (needs_convert img1); auto with quiet|].
  intros img2. auto with quiet.
Qed.

Lemma convert_one_quiet fp : quiet (convert_one fp).
Proof.
  unfold convert_one. pose proof with_body_quiet. auto 10 with quiet.
Qed.

Lemma convert_one_filename fp w w1 s :
  convert_one fp w = (w1, Ret s) -> filename s = name fp.
Proof.
  unfold convert_one. run.
  destruct (st_size fp (fs w)); [|discriminate].
  destruct (image_open fp (fs w)); [|discriminate].
  destruct (with_body fp a0 _) as [w2 [[]|e]]; simpl; [|discriminate].
  destruct (st_size _ _); [|discriminate].
  intros H; inversion H; reflexivity.
Qed.

(** The three ways a turn of the loop can go. *)
Lemma loop_body_ok fp stats w w1 s :
  convert_one fp w = (w1, Ret s) ->
  loop_body fp stats w = (w1, Ret (stats ++ [s])).
Proof. unfold loop_body, try_except, bind, ret. now intros ->. Qed.

Lemma loop_body_caught fp stats w w1 msg :
  convert_one fp w = (w1, Raise (Exception msg)) ->
  loop_body fp stats w = (printing [ErrorLine (name fp) msg] w1, Ret stats).
Proof. unfold loop_body, try_except, bind, ret. now intros ->. Qed.

Lemma loop_body_escapes fp stats w w1 e :
  convert_one fp w = (w1, Raise e) -> is_exception e = false ->
  loop_body fp stats w = (w1, Raise e).
Proof.
  unfold loop_body, try_except, bind, ret. intros -> He.
  destruct e; [discriminate| |]; reflexivity.
Qed.

Lemma loop_body_no_exception fp stats w msg :
  snd (loop_body fp stats w) <> Raise (Exception msg).
Proof.
  destruct (convert_one fp w) as [w1 [s|[m| |c]]] eqn:H.
  - erewrite loop_body_ok by eassumption. discriminate.
  - erewrite loop_body_caught by eassumption. discriminate.
  - erewrite loop_body_escapes by (eassumption || reflexivity). discriminate.
  - erewrite loop_body_escapes by (eassumption || reflexivity). discriminate.
Qed.

(** The list built so far has no say in what a turn does to the world. *)
Lemma loop_body_stats fp stats w :
  loop_body fp stats w
  = match loop_body fp [] w with
    | (w1, Ret s) => (w1, Ret (stats ++ s))
    | (w1, Raise e) => (w1, Raise e)
    end.
Proof.
  destruct (convert_one fp w) as [w1 [s|[m| |c]]] eqn:H.
  - now rewrite !(loop_body_ok fp _ w H).
  - rewrite !(loop_body_caught fp _ w H). now rewrite app_nil_r.
  - now rewrite !(loop_body_escapes fp _ w H eq_refl).
  - now rewrite !(loop_body_escapes fp _ w H eq_refl).
Qed.

Lemma for_loop_stats files : forall stats w,
  for_loop files stats w
  = match for_loop files [] w with
    | (w1, Ret s) => (w1, Ret (stats ++ s))
    | (w1, Raise e) => (w1, Raise e)
    end.
Proof.
  induction files as [|fp rest IH]; intros stats w; simpl.
  - unfold ret. now rewrite app_nil_r.
  - unfold bind. rewrite loop_body_stats.
    destruct (loop_body fp [] w) as [w1 [s|e]]; [|reflexivity].
    rewrite IH, (IH s).
    destruct (for_loop rest [] w1) as [w2 [s'|e]]; [|reflexivity].
    now rewrite app_assoc.
Qed.

Lemma for_loop_app pre : forall rest stats w,
  for_loop (pre ++ rest) stats w
  = match for_loop pre stats w with
    | (w1, Ret s) => for_loop rest s w1
    | (w1, Raise e) => (w1, Raise e)
    end.
Proof.
  induction pre as [|fp pre IH]; intros rest stats w; simpl.
  - reflexivity.
  - unfold bind. destruct (loop_body fp stats w) as [w1 [s|e]]; [|reflexivity].
    apply IH.
Qed.

Lemma for_loop_no_exception files : forall stats w msg,
  snd (for_loop files stats w) <> Raise (Exception msg).
Proof.
  induction files as [|fp rest IH]; intros stats w msg; simpl.
  - discriminate.
  - unfold bind.
    destruct (loop_body fp stats w) as [w1 [s|e]] eqn:H.
    + apply IH.
    + simpl. intros He. inversion He; subst e.
      apply (loop_body_no_exception fp stats w (msg := msg)). now rewrite H.
Qed.

(** *** File by file *)

Lemma fst_for_loop_stats files stats w :
  fst (for_loop files stats w) = fst (for_loop files [] w).
Proof.
  rewrite for_loop_stats. now destruct (for_loop files [] w) as [w1 [s|e]].
Qed.

Lemma reached_cons fp rest i w w1 s :
  loop_body fp [] w = (w1, Ret s) ->
  reached (fp :: rest) (S i) w = reached rest i w1.
Proof.
  unfold reached. simpl. unfold bind. intros ->. apply fst_for_loop_stats.
Qed.

Lemma map_combine_seq_shift {B} (g : nat -> path -> B) (l : list path) : forall n k,
  map (fun '(i, fp) => g i fp) (combine (seq (S k) n) l)
  = map (fun '(i, fp) => g (S i) fp) (combine (seq k n) l).
Proof.
  induction l as [|x l IH]; intros [|n] k; simpl; try reflexivity.
  f_equal. apply IH.
Qed.

Lemma attempts_cons fp rest w w1 s :
  loop_body fp [] w = (w1, Ret s) ->
  attempts (fp :: rest) w = snd (convert_one fp w) :: attempts rest w1.
Proof.
  intros H. unfold attempts. simpl. f_equal.
  rewrite (map_combine_seq_shift
             (fun i fp' => snd (convert_one fp' (reached (fp :: rest) i w)))).
  apply map_ext. intros [i fp']. erewrite reached_cons by exact H. reflexivity.
Qed.

Lemma length_attempts files w : List.length (attempts files w) = List.length files.
Proof.
  unfold attempts. rewrite length_map, length_combine, length_seq. lia.
Qed.

Lemma nth_error_combine_seq (l : list path) : forall k i fp,
  nth_error l i = Some fp ->
  nth_error (combine (seq k (List.length l)) l) i = Some ((k + i)%nat, fp).
Proof.
  induction l as [|x l IH]; intros k [|i] fp H; simpl in *; try discriminate.
  - inversion H. now rewrite Nat.add_0_r.
  - rewrite (IH (S k) i fp H). f_equal. f_equal. lia.
Qed.

Lemma nth_error_attempts files w i fp :
  nth_error files i = Some fp ->
  nth_error (attempts files w) i
  = Some (snd (convert_one fp (reached files i w))).
Proof.
  intros H. unfold attempts.
  rewrite nth_error_map, (nth_error_combine_seq _ 0 _ H). reflexivity.
Qed.

Lemma errors_error_lines l : errors (map error_line l) = l.
Proof.
  induction l as [|[f c] l IH]; simpl; [reflexivity|]. now rewrite IH.
Qed.

(** When the loop runs to its end, its list holds the results of the
    files that were processed without an error, in order, and the
    terminal shows one error line for each of the others. *)
Lemma for_loop_returns files : forall w w' stats,
  for_loop files [] w = (w', Ret stats) ->
  stats = results_of (attempts files w)
  /\ Forall ok_or_caught (attempts files w)
  /\ stdin w' = stdin w
  /\ stdout w' = stdout w
                 ++ map error_line (failures (combine files (attempts files w))).
Proof.
  induction files as [|fp rest IH]; intros w w' stats H.
  - inversion H; subst. simpl. now rewrite app_nil_r.
  - simpl in H. unfold bind in H.
    destruct (convert_one_quiet fp w) as [Hin Hout].
    destruct (convert_one fp w) as [w1 [s|[msg| |c]]] eqn:Hc; simpl in Hin, Hout.
    + pose proof (loop_body_ok fp [] w Hc) as Hb. rewrite Hb in H.
      erewrite attempts_cons by exact Hb. rewrite Hc. simpl.
      rewrite for_loop_stats in H.
      destruct (for_loop rest [] w1) as [w2 [st|e]] eqn:Hl; [|discriminate].
      inversion H; subst. destruct (IH _ _ _ Hl) as (-> & Hf & Hi & Ho).
      repeat split; try congruence.
      constructor; [exact I|assumption].
    + pose proof (loop_body_caught fp [] w Hc) as Hb. rewrite Hb in H.
      erewrite attempts_cons by exact Hb. rewrite Hc. simpl.
      destruct (IH _ _ _ H) as (-> & Hf & Hi & Ho).
      repeat split.
      * constructor; [reflexivity|assumption].
      * rewrite Hi. simpl. assumption.
      * rewrite Ho. simpl. rewrite Hout, <- app_assoc. reflexivity.
    + rewrite (loop_body_escapes fp [] w Hc eq_refl) in H. discriminate.
    + rewrite (loop_body_escapes fp [] w Hc eq_refl) in H. discriminate.
Qed.

Lemma results_and_failures files : forall tried,
  List.length tried = List.length files ->
  Forall ok_or_caught tried ->
  (List.length (results_of tried)
   + List.length (failures (combine files tried)) = List.length files)%nat.
Proof.
  induction files as [|fp rest IH]; intros [|o tried] Hlen Hok;
    simpl in *; try discriminate; [reflexivity|].
  inversion Hok; subst.
  assert (Hr := IH tried ltac:(lia) H2).
  destruct o as [s|[msg| |c]]; simpl in *; try discriminate;
    rewrite ?length_app; simpl; lia.
Qed.

End Batch.

(** ** Finding the files *)

Section Discovery.

Context {E : Env}.

Lemma is_icns_run f w :
  is_icns f w
  = (w, match is_file f (fs w) with
        | Ret b => Ret (b && icns_suffix f)
        | Raise e => Raise e
        end).
Proof.
  unfold is_icns, bind, query, ret, icns_suffix.
  destruct (is_file f (fs w)) as [[|]|e]; reflexivity.
Qed.

Lemma comprehension_returns l : forall w w' files,
  comprehension is_icns l w = (w', Ret files) ->
  w' = w
  /\ files = filter (fun f => regular (fs w) f && icns_suffix f) l
  /\ Forall (fun f => exists b, is_file f (fs w) = Ret b) l.
Proof.
  induction l as [|f l IH]; intros w w' files H; simpl in H.
  - inversion H. repeat split. constructor.
  - unfold bind in H. rewrite is_icns_run in H. unfold regular. simpl.
    destruct (is_file f (fs w)) as [b|e] eqn:Hf; [|discriminate].
    destruct (comprehension is_icns l w) as [w1 [fs'|e]] eqn:Hl; [|discriminate].
    destruct (IH _ _ _ Hl) as (-> & -> & Hall).
    unfold ret in H. inversion H; subst. repeat split.
    constructor; [now exists b|assumption].
Qed.

Lemma discover_returns w w' files :
  discover w = (w', Ret files) ->
  w' = w
  /\ exists names,
       iterdir InputDir (fs w) = Ret names
       /\ files = filter (fun f => regular (fs w) f && icns_suffix f)
                         (map (Path InputDir) names).
Proof.
  unfold discover, bind, query. intros H.
  destruct (iterdir InputDir (fs w)) as [names|e]; [|discriminate].
  destruct (comprehension_returns _ _ H) as (-> & -> & _).
  split; [reflexivity|]. now exists names.
Qed.

(** C7: when the listing returns [files], they are the entries of the
    input folder, in the order the folder lists them, that are regular
    files and whose extension, lowered, is [.icns]; an entry is selected
    if and only if it is both, so folders and files with another
    extension are left out. *)
Theorem discover_selects_regular_icns_files (w w' : world) (files : list path) :
  discover w = (w', Ret files) ->
  exists names,
    iterdir InputDir (fs w) = Ret names
    /\ files = filter (fun f => regular (fs w) f && icns_suffix f)
                      (map (Path InputDir) names)
    /\ forall f, In f files <->
                 (In f (map (Path InputDir) names)
                  /\ is_file f (fs w) = Ret true
                  /\ Str.lower (Str.suffix (name f)) = ".icns").
Proof.
  intros H. destruct (discover_returns _ H) as (-> & names & Hn & ->).
  exists names. repeat split; try assumption.
  - apply filter_In in H0. tauto.
  - apply filter_In in H0. destruct H0 as [_ H0].
    apply andb_true_iff in H0. destruct H0 as [H0 _].
    unfold regular in H0. destruct (is_file f (fs w)); congruence.
  - apply filter_In in H0. destruct H0 as [_ H0].
    apply andb_true_iff in H0. destruct H0 as [_ H0].
    now apply String.eqb_eq in H0.
  - intros (Hin & Hf & Hs). apply filter_In. split; [assumption|].
    unfold regular, icns_suffix. rewrite Hf, Hs. reflexivity.
Qed.

(** The listing leaves the terminal alone. *)
Lemma list_files_terminal w w1 files :
  list_files w = (w1, Ret files) ->
  stdin w1 = stdin w /\ stdout w1 = stdout w.
Proof.
  unfold list_files, bind, action. intros H.
  destruct (mkdir InputDir (fs w)) as [d1 [[]|e]]; [|discriminate]. simpl in H.
  destruct (mkdir OutputDir d1) as [d2 [[]|e]]; [|discriminate]. simpl in H.
  destruct (discover_returns _ H) as (-> & _). split; reflexivity.
Qed.

End Discovery.

(** ** The summary: what is reported *)

Section SummaryClaims.

Context {E : Env}.

Lemma top3_entries_app l1 l2 :
  top3_entries (l1 ++ l2) = top3_entries l1 ++ top3_entries l2.
Proof. apply flat_map_app. Qed.

Lemma top3_ratios_app l1 l2 :
  top3_ratios (l1 ++ l2) = top3_ratios l1 ++ top3_ratios l2.
Proof. apply flat_map_app. Qed.

Lemma changes_app l1 l2 : changes (l1 ++ l2) = changes l1 ++ changes l2.
Proof. apply flat_map_app. Qed.

Lemma top3_entries_summary stats w :
  top3_entries (emitted (print_summary stats) w) = top3_of stats.
Proof.
  rewrite emitted_print_summary, top3_entries_app.
  destruct stats as [|s rest]; [reflexivity|].
  unfold top3_lines. simpl. apply top3_entries_lines.
Qed.

Lemma top3_ratios_lines l :
  top3_ratios (map top3_line l)
  = map (fun s => (original_size s, converted_size s, ratio_spec s)) l.
Proof.
  induction l as [|s l IH]; simpl; [reflexivity|]. now rewrite IH.
Qed.

Lemma top3_ratios_summary stats w :
  top3_ratios (emitted (print_summary stats) w)
  = map (fun s => (original_size s, converted_size s, ratio_spec s))
        (top3_of stats).
Proof.
  rewrite emitted_print_summary, top3_ratios_app.
  destruct stats as [|s rest]; [reflexivity|].
  unfold top3_lines. simpl. apply top3_ratios_lines.
Qed.

(** C1: for a non-empty outcome the top-3 report is printed, and the
    entries it lists are the first three of the stable descending sort of
    the outcome by [converted_size]: a permutation of the outcome whose
    sizes never go up and in which results of equal size keep the order
    they have in the outcome, which is the order the files were processed
    in.  So they are as many as three or as the outcome has, and each is at
    least as large as every result left out. *)
Theorem top3_report_is_stable_descending_prefix
    (stats : list stat_entry) (w : world) :
  stats <> [] ->
  exists sorted,
    stable_descending_sort converted_size stats sorted
    /\ In Top3Header (emitted (print_summary stats) w)
    /\ top3_entries (emitted (print_summary stats) w) = firstn 3 sorted
    /\ List.length (firstn 3 sorted) = Nat.min 3 (List.length stats)
    /\ forall a b, In a (firstn 3 sorted) -> In b (skipn 3 sorted) ->
                   converted_size b <= converted_size a.
Proof.
  intros Hne. exists (sorted_reverse converted_size stats).
  pose proof (sorted_reverse_stable converted_size stats) as Hst.
  split; [exact Hst|]. destruct Hst as (Hp & Hd & _).
  repeat split.
  - rewrite emitted_print_summary. apply in_or_app. right.
    destruct stats; [contradiction|]. now left.
  - apply top3_entries_summary.
  - rewrite length_firstn. now rewrite (Permutation_length Hp).
  - intros a b Ha Hb.
    eapply descending_app; [|exact Ha|exact Hb].
    now rewrite firstn_skipn.
Qed.

(** C4: printing the summary never raises, so no division by zero takes
    place; every ratio of the top-3 report is the quotient of the two
    sizes on its line when the original size is not zero and is 1 when it
    is zero.  The ratio of a result is computed by a division only when
    its original size is not zero, although a division by zero would
    raise. *)
Theorem top3_ratio_is_guarded (stats : list stat_entry) (w : world) :
  snd (print_summary stats w) = Ret tt
  /\ top3_ratios (emitted (print_summary stats) w)
     = map (fun s => (original_size s, converted_size s, ratio_spec s))
           (top3_of stats)
  /\ Forall (fun '(o, c, r) =>
               (o <> 0 -> r = (inject_Z c / inject_Z o)%Q)
               /\ (o = 0 -> r = 1%Q))
            (top3_ratios (emitted (print_summary stats) w))
  /\ (forall s e, ratio_of s <> Raise e)
  /\ (forall s, original_size s <> 0 ->
                ratio_of s = truediv (converted_size s) (original_size s))
  /\ (forall a, truediv a 0 = Raise (Exception "division by zero")).
Proof.
  split; [now rewrite print_summary_run|].
  split; [apply top3_ratios_summary|].
  split.
  - rewrite top3_ratios_summary. apply Forall_forall.
    intros [[o c] r] Hin. apply in_map_iff in Hin.
    destruct Hin as (s & Hs & _). inversion Hs; subst. unfold ratio_spec.
    destruct (Z.eqb_spec (original_size s) 0); split; intros; congruence.
  - repeat split.
    + intros s e. rewrite ratio_of_spec. discriminate.
    + intros s Hs. unfold ratio_of.
      destruct (Z.eqb_spec (original_size s) 0); [contradiction|reflexivity].
Qed.

(** C5: the summary prints the number of results, the sum of their
    original sizes, the sum of their converted sizes, and the difference
    of the second sum and the first as an arrow, a colour and a magnitude;
    the top-3 report follows.  For two files of 100 and 50 bytes
    converted to 120 and 40 bytes the sums are 150 and 160 and the change
    is an increase of 10. *)
Theorem summary_reports_count_totals_and_delta
    (stats : list stat_entry) (w : world) :
  (let total_orig := total original_size stats in
   let total_conv := total converted_size stats in
   let delta := total_conv - total_orig in
   exists top3,
     emitted (print_summary stats) w
     = [ ConversionComplete; Rule; FilesConverted (List.length stats);
         FormatLine; SizeSummary; Original total_orig; Converted total_conv;
         Change (if 0 <? delta then Up else Down)
                (if 0 <? delta then Red else Green) (Z.abs delta) ] ++ top3)
  /\ (forall f1 f2, exists top3,
        emitted (print_summary [Stat f1 100 120; Stat f2 50 40]) w
        = [ ConversionComplete; Rule; FilesConverted 2;
            FormatLine; SizeSummary; Original 150; Converted 160;
            Change Up Red 10 ] ++ top3).
Proof.
  split.
  - exists (top3_lines stats). apply emitted_print_summary.
  - intros f1 f2. eexists. rewrite emitted_print_summary. reflexivity.
Qed.

(** C10: the summary prints one [Change] line; its arrow is the upward
    one, and its colour the colour of an increase, exactly when the total
    converted size minus the total original size is above zero; when the
    two totals are equal the arrow is the downward one. *)
Theorem increase_arrow_iff_positive_delta (stats : list stat_entry) (w : world) :
  let delta := total converted_size stats - total original_size stats in
  exists sign color,
    changes (emitted (print_summary stats) w) = [(sign, color, Z.abs delta)]
    /\ (sign = Up <-> 0 < delta)
    /\ (color = Red <-> 0 < delta)
    /\ (delta = 0 -> sign = Down).
Proof.
  intros delta.
  exists (if 0 <? delta then Up else Down), (if 0 <? delta then Red else Green).
  split.
  - rewrite emitted_print_summary, changes_app.
    replace (changes (top3_lines stats)) with (@nil (arrow * colour * Z)).
    + reflexivity.
    + unfold top3_lines. destruct stats as [|s rest]; [reflexivity|].
      simpl. induction (top3_of (s :: rest)); simpl; auto.
  - destruct (Z.ltb_spec 0 delta); repeat split; intros; try lia;
      try discriminate; reflexivity.
Qed.

End SummaryClaims.

(** ** The conversion loop: what ends up in the outcome *)

Section BatchClaims.

Context {E : Env}.

Lemma errors_app l1 l2 : errors (l1 ++ l2) = errors l1 ++ errors l2.
Proof. apply flat_map_app. Qed.

Lemma convert_files_returns w w' stats :
  convert_files w = (w', Ret (Some stats)) ->
  exists w0 files,
    list_files w = (w0, Ret files)
    /\ files <> []
    /\ for_loop files [] (printing [Found (List.length files)] w0)
       = (w', Ret stats).
Proof.
  unfold convert_files. unfold bind at 1. intros H.
  destruct (list_files w) as [w0 [[|fp rest]|e]]; [| |discriminate].
  - exfalso. unfold bind at 1 in H. rewrite print_run in H.
    unfold bind at 1 in H. rewrite print_run in H.
    unfold bind at 1 in H.
    destruct (input_choice _) as [w1 [choice|e]]; [|discriminate].
    destruct (is_quit choice); [|discriminate].
    unfold bind in H. rewrite print_run in H. discriminate.
  - exists w0, (fp :: rest). split; [reflexivity|]. split; [discriminate|].
    unfold bind at 1 in H. rewrite print_run in H. unfold bind in H.
    destruct (for_loop _ _ _) as [w2 [st|e]]; [|discriminate].
    unfold ret in H. now inversion H.
Qed.

(** C2: when the converter returns an outcome, the outcome holds the
    results of the discovered files whose processing returned, in the
    order of discovery, and nothing else.  It is no longer than the list
    of discovered files; a discovered file whose name is on no result is
    one whose processing raised an error; and each file is either on the
    outcome or on an error line, never both: the two counts add up to the
    number of discovered files. *)
Theorem outcome_holds_exactly_the_converted_files
    (w w' : world) (stats : list stat_entry) :
  convert_files w = (w', Ret (Some stats)) ->
  exists w0 files,
    list_files w = (w0, Ret files)
    /\ let tried := attempts files (printing [Found (List.length files)] w0) in
       (List.length stats <= List.length files)%nat
       /\ stats = results_of tried
       /\ (forall i fp,
              nth_error files i = Some fp ->
              ~ In (name fp) (map filename stats) ->
              exists msg, nth_error tried i = Some (Raise (Exception msg)))
       /\ errors (emitted convert_files w) = failures (combine files tried)
       /\ (List.length stats + List.length (errors (emitted convert_files w))
           = List.length files)%nat.
Proof.
  intros H. destruct (convert_files_returns w H) as (w0 & files & Hl & _ & Hloop).
  exists w0, files. split; [exact Hl|]. intros tried.
  destruct (for_loop_returns _ _ Hloop) as (Hst & Hok & _ & Hout).
  fold tried in Hst, Hok, Hout.
  assert (Herr : errors (emitted convert_files w) = failures (combine files tried)).
  { unfold emitted. rewrite H. simpl. rewrite Hout. simpl.
    destruct (list_files_terminal _ Hl) as [_ ->].
    rewrite <- app_assoc, skipn_length_app. simpl. apply errors_error_lines. }
  assert (Hsum : (List.length stats + List.length (failures (combine files tried))
                  = List.length files)%nat).
  { rewrite Hst. apply results_and_failures; [apply length_attempts|exact Hok]. }
  repeat split.
  - lia.
  - exact Hst.
  - intros i fp Hi Hnot.
    pose proof (@nth_error_attempts E files (printing [Found (List.length files)] w0) i fp Hi) as Hn.
    fold tried in Hn. rewrite Hn.
    destruct (convert_one fp _) as [w1 [s|e]] eqn:Hc; simpl in *.
    + exfalso. apply Hnot. rewrite <- (@convert_one_filename E fp _ w1 s Hc).
      apply in_map. rewrite Hst. unfold results_of. apply in_flat_map.
      exists (Ret s). split; [|now left].
      eapply nth_error_In. exact Hn.
    + rewrite Forall_forall in Hok.
      specialize (Hok _ (nth_error_In _ _ Hn)). simpl in Hok.
      destruct e; try discriminate. now exists msg.
  - exact Herr.
  - rewrite Herr. exact Hsum.
Qed.

(** C3: an error raised while a file is processed, wherever the file is
    in the batch, is caught in that file's turn of the loop: the list of
    results is left as it was, a line with the name of the file and the
    text of the error is printed, and the loop goes on with the files that
    follow.  No error leaves the loop, whatever the files are. *)
Theorem per_file_error_is_contained
    (pre rest : list path) (fp : path) (w w0 w1 : world)
    (stats0 : list stat_entry) (msg : string) :
  for_loop pre [] w = (w0, Ret stats0) ->
  convert_one fp w0 = (w1, Raise (Exception msg)) ->
  for_loop (pre ++ fp :: rest) [] w
  = for_loop rest stats0 (printing [ErrorLine (name fp) msg] w1)
  /\ emitted (loop_body fp stats0) w0 = [ErrorLine (name fp) msg]
  /\ (forall files stats w2 msg',
         snd (for_loop files stats w2) <> Raise (Exception msg')).
Proof.
  intros Hpre Hc. repeat split.
  - rewrite for_loop_app, Hpre. simpl. unfold bind.
    now rewrite (loop_body_caught fp stats0 w0 Hc).
  - unfold emitted. rewrite (loop_body_caught fp stats0 w0 Hc). simpl.
    destruct (convert_one_quiet fp w0) as [_ Hout]. rewrite Hc in Hout.
    simpl in Hout. rewrite Hout. apply skipn_length_app.
  - intros. apply for_loop_no_exception.
Qed.

Lemma needs_convert_false img :
  image_mode img = "RGB" \/ image_mode img = "RGBA" -> needs_convert img = false.
Proof.
  unfold needs_convert. intros [-> | ->]; reflexivity.
Qed.

Lemma needs_convert_true img :
  image_mode img <> "RGB" -> image_mode img <> "RGBA" -> needs_convert img = true.
Proof.
  unfold needs_convert. intros H1 H2.
  apply String.eqb_neq in H1, H2. now rewrite H1, H2.
Qed.

Lemma called_steps {A} (m : M A) w cs :
  pil (fst (m w)) = pil w ++ cs -> called m w = cs.
Proof. unfold called. intros ->. apply skipn_length_app. Qed.

(** C6: once a file is opened and loaded, the image handed to the encoder
    is the loaded image itself when its mode is RGB or RGBA, and no
    conversion is called; when its mode is neither, a conversion to RGBA
    is called on the loaded image and what it returns is handed to the
    encoder, the conversion coming before the save.  In both cases the
    disk that processing the file leaves is the disk that saving that
    very image under the output path leaves, and an error of the save is
    the error of the processing.  If the conversion raises, nothing is
    encoded: the disk is as it was and the error is the conversion's.
    The opened image is closed in each case. *)
Theorem image_is_normalized_before_encoding
    (fp : path) (w : world) (n : Z) (opened img : Image) :
  st_size fp (fs w) = Ret n ->
  image_open fp (fs w) = Ret opened ->
  image_load opened (fs w) = Ret img ->
  (image_mode img = "RGB" \/ image_mode img = "RGBA" ->
   fs (fst (convert_one fp w)) = fst (image_save img (out_path_of fp) (fs w))
   /\ (forall e, snd (image_save img (out_path_of fp) (fs w)) = Raise e ->
                 snd (convert_one fp w) = Raise e)
   /\ called (convert_one fp) w
      = [CallOpen fp; CallLoad opened;
         CallSave img (out_path_of fp); CallClose opened])
  /\ (image_mode img <> "RGB" -> image_mode img <> "RGBA" ->
      forall img', image_convert img "RGBA" = Ret img' ->
      fs (fst (convert_one fp w)) = fst (image_save img' (out_path_of fp) (fs w))
      /\ (forall e, snd (image_save img' (out_path_of fp) (fs w)) = Raise e ->
                    snd (convert_one fp w) = Raise e)
      /\ called (convert_one fp) w
         = [CallOpen fp; CallLoad opened; CallConvert img "RGBA";
            CallSave img' (out_path_of fp); CallClose opened])
  /\ (image_mode img <> "RGB" -> image_mode img <> "RGBA" ->
      forall e, image_convert img "RGBA" = Raise e ->
      fs (fst (convert_one fp w)) = fs w
      /\ snd (convert_one fp w) = Raise e
      /\ called (convert_one fp) w
         = [CallOpen fp; CallLoad opened; CallConvert img "RGBA";
            CallClose opened]).
Proof.
  intros Hs Ho Hl. split; [|split].
  - intros Hm. unfold called.
    unfold convert_one, with_body. run. rewrite Hs, Ho. simpl. rewrite Hl.
    rewrite (needs_convert_false _ Hm). simpl.
    destruct (image_save img (out_path_of fp) (fs w)) as [d [[]|e]]; simpl.
    + destruct (st_size (out_path_of fp) d); simpl;
        (split; [reflexivity|]); (split; [discriminate|]);
        rewrite <- !app_assoc; apply skipn_length_app.
    + split; [reflexivity|]. split; [intros e0 H; now inversion H|].
      rewrite <- !app_assoc. apply skipn_length_app.
  - intros H1 H2 img' Hc. unfold called.
    unfold convert_one, with_body. run. rewrite Hs, Ho. simpl. rewrite Hl.
    rewrite (needs_convert_true _ H1 H2). simpl. rewrite Hc.
    destruct (image_save img' (out_path_of fp) (fs w)) as [d [[]|e]]; simpl.
    + destruct (st_size (out_path_of fp) d); simpl;
        (split; [reflexivity|]); (split; [discriminate|]);
        rewrite <- !app_assoc; apply skipn_length_app.
    + split; [reflexivity|]. split; [intros e0 H; now inversion H|].
      rewrite <- !app_assoc. apply skipn_length_app.
  - intros H1 H2 e Hc. unfold called.
    unfold convert_one, with_body. run. rewrite Hs, Ho. simpl. rewrite Hl.
    rewrite (needs_convert_true _ H1 H2). simpl. rewrite Hc. simpl.
    split; [reflexivity|]. split; [reflexivity|].
    rewrite <- !app_assoc. apply skipn_length_app.
Qed.

End BatchClaims.

(** ** The caller: with or without a summary *)

Section MainClaims.

Context {E : Env}.

Lemma print_header_run w :
  print_header w = (printing [HeaderTitle; HeaderAuthor; Rule] w, Ret tt).
Proof.
  unfold print_header, bind. rewrite !print_run, !printing_printing. reflexivity.
Qed.

Lemma ask_output_format_returns w w1 fmt :
  ask_output_format w = (w1, Ret fmt) ->
  stdout w1 = stdout w ++ [FormatPrompt].
Proof.
  unfold ask_output_format, input_choice, input, bind, ret, raise. simpl.
  destruct (stdin w) as [|l rest]; [discriminate|].
  destruct (is_quit _); simpl; [discriminate|].
  intros H. inversion H. reflexivity.
Qed.

(** What the end of a turn prints when the outcome is empty. *)
Lemma after_convert_empty w :
  exists tail,
    stdout (fst (after_convert (Some []) w))
    = stdout w ++ ReadyNext :: PressEnterRestart :: tail
    /\ (tail = [] \/ tail = [Exiting]).
Proof.
  unfold after_convert, input_choice, input, bind, ret. simpl.
  destruct (stdin w) as [|l rest]; simpl.
  - exists []. rewrite <- app_assoc. auto.
  - destruct (is_quit _); simpl.
    + exists [Exiting]. rewrite <- !app_assoc. auto.
    + exists []. rewrite <- app_assoc. auto.
Qed.

Lemma summary_free_error_lines l :
  filter is_summary_line (map error_line l) = [].
Proof. induction l as [|e l IH]; simpl; auto. Qed.

Lemma top3_ratios_summary_free ls :
  filter is_summary_line ls = [] -> top3_ratios ls = [].
Proof.
  induction ls as [|l ls IH]; simpl; [reflexivity|].
  destruct l; simpl; try discriminate; auto.
Qed.

(** C8: in a turn of the caller in which the converter returns the empty
    outcome, the summary is not printed: the turn goes from the
    converter straight to the closing prompt, and what it prints is the
    header, the format prompt, the number of files found, one error line
    for each file, and the closing prompt.  No line of the summary is
    among them, no ratio in particular, so nothing is divided.  Were
    [print_summary] run on the empty outcome, it would print no ratio
    either. *)
Theorem empty_outcome_skips_summary (w w1 w2 : world) (fmt : string) :
  ask_output_format (printing [HeaderTitle; HeaderAuthor; Rule] w) = (w1, Ret fmt) ->
  convert_files w1 = (w2, Ret (Some [])) ->
  main_turn w = after_convert (Some []) w2
  /\ (exists n failed tail,
        emitted main_turn w
        = [HeaderTitle; HeaderAuthor; Rule; FormatPrompt; Found n]
            ++ map error_line failed
            ++ ReadyNext :: PressEnterRestart :: tail
        /\ (tail = [] \/ tail = [Exiting]))
  /\ filter is_summary_line (emitted main_turn w) = []
  /\ top3_ratios (emitted main_turn w) = []
  /\ top3_ratios (emitted (print_summary []) w2) = [].
Proof.
  intros Hask Hconv.
  assert (Hturn : main_turn w = after_convert (Some []) w2).
  { unfold main_turn. unfold bind at 1. rewrite print_header_run.
    unfold bind at 1. rewrite Hask. unfold bind at 1. now rewrite Hconv. }
  destruct (convert_files_returns w1 Hconv) as (w0 & files & Hl & _ & Hloop).
  destruct (for_loop_returns _ _ Hloop) as (_ & _ & _ & Hout).
  destruct (list_files_terminal _ Hl) as [_ Hout0].
  destruct (after_convert_empty w2) as (tail & Hend & Htail).
  assert (Hem : emitted main_turn w
                = [HeaderTitle; HeaderAuthor; Rule; FormatPrompt;
                   Found (List.length files)]
                    ++ map error_line
                         (failures (combine files
                            (attempts files
                               (printing [Found (List.length files)] w0))))
                    ++ ReadyNext :: PressEnterRestart :: tail).
  { unfold emitted. rewrite Hturn, Hend, Hout. simpl. rewrite Hout0.
    rewrite (ask_output_format_returns _ Hask). simpl.
    rewrite <- !app_assoc. rewrite skipn_length_app. reflexivity. }
  assert (Hfree : filter is_summary_line (emitted main_turn w) = []).
  { rewrite Hem. rewrite !filter_app, summary_free_error_lines. simpl.
    destruct Htail as [-> | ->]; reflexivity. }
  split; [exact Hturn|]. split.
  - eexists _, _, tail. split; [exact Hem|exact Htail].
  - split; [exact Hfree|]. split.
    + now apply top3_ratios_summary_free.
    + now rewrite top3_ratios_summary.
Qed.

(** *** Turns and typed lines *)

Lemma input_choice_consumes w w1 c :
  input_choice w = (w1, Ret c) ->
  S (List.length (stdin w1)) = List.length (stdin w).
Proof.
  unfold input_choice, input, bind, ret.
  destruct (stdin w) as [|l rest] eqn:Hin; [discriminate|].
  intros H. inversion H. reflexivity.
Qed.

Lemma convert_files_stdin w w1 r :
  convert_files w = (w1, Ret r) ->
  (List.length (stdin w1) <= List.length (stdin w))%nat.
Proof.
  intros H. destruct r as [stats|].
  - destruct (convert_files_returns w H) as (w0 & files & Hl & _ & Hloop).
    destruct (for_loop_returns _ _ Hloop) as (_ & _ & Hin & _).
    destruct (list_files_terminal _ Hl) as [Hin0 _].
    rewrite Hin. simpl. rewrite Hin0. lia.
  - unfold convert_files in H. unfold bind at 1 in H.
    destruct (list_files w) as [w0 [[|fp rest]|e]] eqn:Hl; [| |discriminate].
    + destruct (list_files_terminal _ Hl) as [Hin0 _].
      unfold bind at 1 in H. rewrite print_run in H.
      unfold bind at 1 in H. rewrite print_run in H.
      unfold bind at 1 in H.
      destruct (input_choice _) as [w2 [c|e]] eqn:Hc; [|discriminate].
      apply input_choice_consumes in Hc. simpl in Hc.
      destruct (is_quit c).
      * unfold bind in H. rewrite print_run in H. discriminate.
      * unfold ret in H. inversion H; subst. rewrite <- Hin0. lia.
    + unfold bind at 1 in H. rewrite print_run in H. unfold bind in H.
      destruct (for_loop _ _ _) as [w2 [st|e]]; discriminate.
Qed.

Lemma after_convert_stdin r w w1 c :
  after_convert r w = (w1, Ret c) ->
  (List.length (stdin w1) <= List.length (stdin w))%nat.
Proof.
  destruct r as [stats|]; simpl.
  - unfold bind at 1.
    assert (Hs : exists ls,
               (match stats with
                | [] => ret tt
                | _ :: _ => print_summary stats
                end) w = (printing ls w, Ret tt)).
    { destruct stats.
      - exists []. unfold ret. now rewrite printing_nil.
      - eexists. apply print_summary_run. }
    destruct Hs as (ls & ->).
    unfold bind at 1. rewrite print_run. unfold bind at 1. rewrite print_run.
    unfold bind at 1.
    destruct (input_choice _) as [w2 [ch|e]] eqn:Hc; [|discriminate].
    apply input_choice_consumes in Hc. simpl in Hc.
    destruct (is_quit ch).
    + unfold bind. rewrite print_run. unfold ret. intros H. inversion H; subst.
      simpl. lia.
    + unfold ret. intros H. inversion H; subst. lia.
  - unfold ret. intros H. inversion H; subst. lia.
Qed.

(** A turn that ends normally has read at least one typed line. *)
Lemma main_turn_consumes w w1 c :
  main_turn w = (w1, Ret c) ->
  (List.length (stdin w1) < List.length (stdin w))%nat.
Proof.
  unfold main_turn. unfold bind at 1. rewrite print_header_run.
  unfold bind at 1.
  destruct (ask_output_format _) as [w2 [fmt|e]] eqn:Hask; [|discriminate].
  assert (Hone : S (List.length (stdin w2)) = List.length (stdin w)).
  { revert Hask. unfold ask_output_format. unfold bind at 1. rewrite print_run.
    unfold bind at 1.
    destruct (input_choice _) as [w3 [ch|e]] eqn:Hc; [|discriminate].
    apply input_choice_consumes in Hc. simpl in Hc.
    destruct (is_quit ch).
    - unfold bind. rewrite print_run. discriminate.
    - unfold ret. intros H. inversion H; subst. exact Hc. }
  unfold bind at 1.
  destruct (convert_files w2) as [w3 [r|e]] eqn:Hconv; [|discriminate].
  intros Hafter.
  apply convert_files_stdin in Hconv. apply after_convert_stdin in Hafter. lia.
Qed.

(** [main] stops by itself once the typed lines are used up: with more
    turns allowed than lines typed, the turns are never the limit. *)
Lemma main_has_enough_fuel fuel : forall w,
  (List.length (stdin w) < fuel)%nat -> snd (main fuel w) <> Ret None.
Proof.
  induction fuel as [|fuel IH]; intros w Hlt; [lia|].
  simpl. unfold bind.
  destruct (main_turn w) as [w1 [[|]|e]] eqn:Hturn; simpl; try discriminate.
  apply main_turn_consumes in Hturn. apply IH. lia.
Qed.

Lemma for_loop_all_fail files : forall w,
  Forall (fun o => exists msg, o = Raise (Exception msg)) (attempts files w) ->
  snd (for_loop files [] w) = Ret [].
Proof.
  induction files as [|fp rest IH]; intros w Hall; [reflexivity|].
  assert (Hhead : exists msg, snd (convert_one fp w) = Raise (Exception msg)).
  { pose proof (@nth_error_attempts E (fp :: rest) w 0 fp eq_refl) as Hn.
    rewrite Forall_forall in Hall. apply (Hall _ (nth_error_In _ _ Hn)). }
  destruct Hhead as (msg & Hc).
  destruct (convert_one fp w) as [w1 o] eqn:Hone. simpl in Hc. subst o.
  pose proof (loop_body_caught fp [] w Hone) as Hb.
  erewrite attempts_cons in Hall by exact Hb.
  inversion Hall; subst.
  simpl. unfold bind. rewrite Hb. now apply IH.
Qed.

(** *** What the terminal shows only grows *)

Lemma grows_quiet {A} (m : M A) : quiet m -> grows m.
Proof. intros H w. exists []. rewrite app_nil_r. apply H. Qed.

Lemma grows_ret {A} (a : A) : grows (ret a).
Proof. apply grows_quiet, quiet_ret. Qed.

Lemma grows_raise {A} (e : raised) : grows (@raise E A e).
Proof. intros w. exists []. now rewrite app_nil_r. Qed.

Lemma grows_print l : grows (print l).
Proof. intros w. now exists [l]. Qed.

Lemma grows_input : grows input.
Proof.
  intros w. exists []. rewrite app_nil_r. unfold input.
  now destruct (stdin w).
Qed.

Lemma grows_bind {A B} (m : M A) (k : A -> M B) :
  grows m -> (forall a, grows (k a)) -> grows (bind m k).
Proof.
  intros Hm Hk w. unfold bind. destruct (Hm w) as (l1 & H1).
  destruct (m w) as [w1 [a|e]]; simpl in *; [|now exists l1].
  destruct (Hk a w1) as (l2 & H2). exists (l1 ++ l2).
  now rewrite H2, H1, app_assoc.
Qed.

Lemma grows_try_except {A} (body : M A) (handler : string -> M A) :
  grows body -> (forall msg, grows (handler msg)) ->
  grows (try_except body handler).
Proof.
  intros Hb Hh w. unfold try_except. destruct (Hb w) as (l1 & H1).
  destruct (body w) as [w1 [a|[msg| |c]]]; simpl in *; try now exists l1.
  destruct (Hh msg w1) as (l2 & H2). exists (l1 ++ l2).
  now rewrite H2, H1, app_assoc.
Qed.

Lemma grows_input_choice : grows input_choice.
Proof.
  apply grows_bind; [apply grows_input|]. intros s. apply grows_ret.
Qed.

Lemma grows_for_loop files : forall stats, grows (for_loop files stats).
Proof.
  induction files as [|fp rest IH]; intros stats; simpl; [apply grows_ret|].
  apply grows_bind; [|exact IH].
  apply grows_try_except.
  - apply grows_bind; [apply grows_quiet, convert_one_quiet|].
    intros s. apply grows_ret.
  - intros msg. apply grows_bind; [apply grows_print|]. intros _. apply grows_ret.
Qed.

Lemma quiet_comprehension l : quiet (comprehension is_icns l).
Proof.
  induction l as [|f l IH]; simpl; [apply quiet_ret|].
  apply quiet_bind.
  - unfold is_icns. apply quiet_bind; [apply quiet_query|].
    intros []; apply quiet_ret.
  - intros b. apply quiet_bind; [exact IH|]. intros fs'. apply quiet_ret.
Qed.

Lemma quiet_list_files : quiet list_files.
Proof.
  unfold list_files.
  apply quiet_bind; [apply quiet_action|]. intros _.
  apply quiet_bind; [apply quiet_action|]. intros _.
  unfold discover. apply quiet_bind; [apply quiet_query|].
  intros names. apply quiet_comprehension.
Qed.

Lemma grows_quit_or {A} (c : string) (a : A) :
  grows (if is_quit c
         then bind (print Exiting) (fun _ => raise (SystemExit 0))
         else ret a).
Proof.
  destruct (is_quit c); [|apply grows_ret].
  apply grows_bind; [apply grows_print|]. intros _. apply grows_raise.
Qed.

Lemma grows_convert_files : grows convert_files.
Proof.
  unfold convert_files. apply grows_bind; [apply grows_quiet, quiet_list_files|].
  intros [|fp rest].
  - apply grows_bind; [apply grows_print|]. intros _.
    apply grows_bind; [apply grows_print|]. intros _.
    apply grows_bind; [apply grows_input_choice|]. intros c.
    apply grows_quit_or.
  - apply grows_bind; [apply grows_print|]. intros _.
    apply grows_bind; [apply grows_for_loop|]. intros st. apply grows_ret.
Qed.

Lemma grows_print_summary stats : grows (print_summary stats).
Proof. intros w. eexists. now rewrite print_summary_run. Qed.

Lemma grows_after_convert r : grows (after_convert r).
Proof.
  destruct r as [stats|]; simpl; [|apply grows_ret].
  apply grows_bind.
  - destruct stats; [apply grows_ret|apply grows_print_summary].
  - intros _. apply grows_bind; [apply grows_print|]. intros _.
    apply grows_bind; [apply grows_print|]. intros _.
    apply grows_bind; [apply grows_input_choice|]. intros c.
    destruct (is_quit c); [|apply grows_ret].
    apply grows_bind; [apply grows_print|]. intros _. apply grows_ret.
Qed.

Lemma grows_main fuel : grows (main fuel).
Proof.
  induction fuel as [|fuel IH]; simpl; [apply grows_ret|].
  apply grows_bind.
  - unfold main_turn.
    apply grows_bind; [intros w; eexists; now rewrite print_header_run|]. intros _.
    apply grows_bind.
    + unfold ask_output_format.
      apply grows_bind; [apply grows_print|]. intros _.
      apply grows_bind; [apply grows_input_choice|]. intros c.
      apply grows_quit_or.
    + intros _. apply grows_bind; [apply grows_convert_files|].
      apply grows_after_convert.
  - intros [|]; [exact IH|apply grows_ret].
Qed.

(** *** The turns of the caller, one after the other *)

Lemma main_turn_after w w1 fmt :
  ask_output_format (printing [HeaderTitle; HeaderAuthor; Rule] w) = (w1, Ret fmt) ->
  main_turn w = bind convert_files after_convert w1.
Proof.
  intros Hask. unfold main_turn. unfold bind at 1. rewrite print_header_run.
  unfold bind at 1. now rewrite Hask.
Qed.

Lemma main_continue fuel w w' :
  main_turn w = (w', Ret Continue) -> main (S fuel) w = main fuel w'.
Proof. intros H. simpl. unfold bind. now rewrite H. Qed.

Lemma main_break fuel w w' :
  main_turn w = (w', Ret Break) -> main (S fuel) w = (w', Ret (Some tt)).
Proof. intros H. simpl. unfold bind. now rewrite H. Qed.

Lemma main_raise fuel w w' e :
  main_turn w = (w', Raise e) -> main (S fuel) w = (w', Raise e).
Proof. intros H. simpl. unfold bind. now rewrite H. Qed.

Lemma bind_assoc_run {A B C} (m : M A) (f : A -> M B) (k : B -> M C) w :
  bind (bind m f) k w = bind m (fun a => bind (f a) k) w.
Proof. unfold bind. destruct (m w) as [w1 [a|e]]; reflexivity. Qed.

(** A new turn starts with the header and the format prompt, whatever
    comes next. *)
Lemma main_starts_with_prompt fuel w :
  exists more,
    stdout (fst (main (S fuel) w))
    = stdout w ++ [HeaderTitle; HeaderAuthor; Rule; FormatPrompt] ++ more.
Proof.
  simpl main. unfold main_turn, ask_output_format.
  rewrite !bind_assoc_run. unfold bind at 1. rewrite print_header_run.
  rewrite !bind_assoc_run. unfold bind at 1. rewrite print_run.
  rewrite printing_printing.
  match goal with
  | |- context [fst (?m (printing ?ls w))] =>
      assert (Hg : grows m); [|destruct (Hg (printing ls w)) as (more & Hm)]
  end.
  - repeat first
      [ apply grows_ret | apply grows_input_choice | apply grows_quit_or
      | apply grows_convert_files | apply grows_after_convert | apply grows_main
      | (apply grows_bind; [|intros])
      | match goal with
        | |- grows (match ?x with _ => _ end) => destruct x
        end ].
  - exists more. rewrite Hm. simpl. now rewrite <- app_assoc.
Qed.

Lemma after_convert_empty_run w l rest :
  stdin w = l :: rest ->
  after_convert (Some []) w
  = if is_quit (Str.lower (Str.strip l))
    then (World (fs w) rest
                (stdout w ++ [ReadyNext; PressEnterRestart; Exiting]) (pil w),
          Ret Break)
    else (World (fs w) rest (stdout w ++ [ReadyNext; PressEnterRestart]) (pil w),
          Ret Continue).
Proof.
  intros Hin. unfold after_convert, input_choice, input, bind, ret. simpl.
  rewrite Hin. destruct (is_quit _); simpl; now rewrite <- !app_assoc.
Qed.

(** C9, as amended: in a turn of the caller that got past the format
    prompt, with no file found and a line other than q or quit typed at
    the prompt, the converter returns [None] having printed the two lines
    of that prompt only; the turn prints no summary and no closing
    prompt, and the caller goes round: its next turn starts in the world
    the converter left and prints the header and the format prompt again.
    With files found that all fail, the converter returns the empty list
    and the caller goes on to the closing prompt, with no summary before
    it, where q or quit ends the loop and any other line starts the next
    turn.  With no file found and q or quit typed at the prompt, the
    converter does not return: it raises [SystemExit], and so does the
    caller. *)
Theorem empty_cases_are_distinguished
    (w w1 : world) (fmt : string) (fuel : nat) :
  ask_output_format (printing [HeaderTitle; HeaderAuthor; Rule] w) = (w1, Ret fmt) ->
  (forall w0 l rest,
      list_files w1 = (w0, Ret []) ->
      stdin w1 = l :: rest ->
      is_quit (Str.lower (Str.strip l)) = false ->
      exists w',
        convert_files w1 = (w', Ret None)
        /\ emitted convert_files w1 = [NoIcnsFiles; PressEnterReturn]
        /\ main_turn w = (w', Ret Continue)
        /\ emitted main_turn w
           = [HeaderTitle; HeaderAuthor; Rule; FormatPrompt;
              NoIcnsFiles; PressEnterReturn]
        /\ main (S fuel) w = main fuel w'
        /\ exists more,
             emitted (main (S (S fuel))) w
             = [HeaderTitle; HeaderAuthor; Rule; FormatPrompt;
                NoIcnsFiles; PressEnterReturn;
                HeaderTitle; HeaderAuthor; Rule; FormatPrompt] ++ more)
  /\ (forall w0 files,
        list_files w1 = (w0, Ret files) ->
        files <> [] ->
        Forall (fun o => exists msg, o = Raise (Exception msg))
               (attempts files (printing [Found (List.length files)] w0)) ->
        exists w' tail,
          convert_files w1 = (w', Ret (Some []))
          /\ main_turn w = after_convert (Some []) w'
          /\ emitted (after_convert (Some [])) w'
             = ReadyNext :: PressEnterRestart :: tail
          /\ (tail = [] \/ tail = [Exiting])
          /\ (forall l rest,
                 stdin w' = l :: rest ->
                 is_quit (Str.lower (Str.strip l)) = true ->
                 snd (main (S fuel) w) = Ret (Some tt))
          /\ (forall l rest,
                 stdin w' = l :: rest ->
                 is_quit (Str.lower (Str.strip l)) = false ->
                 exists w'', stdin w'' = rest /\ main (S fuel) w = main fuel w''))
  /\ (forall w0 l rest,
        list_files w1 = (w0, Ret []) ->
        stdin w1 = l :: rest ->
        is_quit (Str.lower (Str.strip l)) = true ->
        snd (convert_files w1) = Raise (SystemExit 0)
        /\ snd (main (S fuel) w) = Raise (SystemExit 0)).
Proof.
  intros Hask. pose proof (main_turn_after _ Hask) as Hturn.
  pose proof (ask_output_format_returns _ Hask) as Hout1. simpl in Hout1.
  split; [|split].
  - intros w0 l rest Hl Hin Hq.
    destruct (list_files_terminal _ Hl) as [Hin0 Hout0].
    set (w' := World (fs w0) rest (stdout w1 ++ [NoIcnsFiles; PressEnterReturn]) (pil w0)).
    assert (Hrun : convert_files w1 = (w', Ret None)).
    { unfold convert_files, input_choice, input, bind, ret. rewrite Hl. simpl.
      rewrite Hin0, Hin, Hq, Hout0, <- app_assoc. reflexivity. }
    assert (Hmt : main_turn w = (w', Ret Continue)).
    { rewrite Hturn. unfold bind. rewrite Hrun. reflexivity. }
    exists w'. split; [exact Hrun|]. split.
    { unfold emitted. rewrite Hrun. simpl. apply skipn_length_app. }
    split; [exact Hmt|]. split.
    { unfold emitted. rewrite Hmt. simpl. rewrite Hout1, <- !app_assoc.
      apply skipn_length_app. }
    split; [now apply main_continue|].
    destruct (main_starts_with_prompt fuel w') as (more & Hm).
    exists more. unfold emitted.
    rewrite (main_continue (S fuel) _ Hmt), Hm. simpl.
    rewrite Hout1, <- !app_assoc. apply skipn_length_app.
  - intros w0 files Hl Hne Hall.
    pose proof (for_loop_all_fail _ _ Hall) as Hloop.
    destruct (for_loop files [] _) as [w' o] eqn:Hf. simpl in Hloop. subst o.
    destruct (after_convert_empty w') as (tail & Hend & Htail).
    assert (Hrun : convert_files w1 = (w', Ret (Some []))).
    { unfold convert_files. unfold bind at 1. rewrite Hl.
      destruct files as [|fp rest]; [contradiction|].
      unfold bind at 1. rewrite print_run. unfold bind. now rewrite Hf. }
    assert (Hmt : main_turn w = after_convert (Some []) w').
    { rewrite Hturn. unfold bind. now rewrite Hrun. }
    exists w', tail. split; [exact Hrun|]. split; [exact Hmt|]. split.
    { unfold emitted. rewrite Hend. apply skipn_length_app. }
    split; [exact Htail|]. split.
    + intros l rest Hin Hq. rewrite (after_convert_empty_run _ Hin), Hq in Hmt.
      now rewrite (main_break fuel _ Hmt).
    + intros l rest Hin Hq. rewrite (after_convert_empty_run _ Hin), Hq in Hmt.
      eexists. split; [|exact (main_continue fuel _ Hmt)]. reflexivity.
  - intros w0 l rest Hl Hin Hq.
    destruct (list_files_terminal _ Hl) as [Hin0 _].
    assert (Hrun : exists w', convert_files w1 = (w', Raise (SystemExit 0))).
    { eexists. unfold convert_files, input_choice, input, bind, ret, raise.
      rewrite Hl. simpl. rewrite Hin0, Hin, Hq. reflexivity. }
    destruct Hrun as (w' & Hrun). split; [now rewrite Hrun|].
    assert (Hmt : main_turn w = (w', Raise (SystemExit 0))).
    { rewrite Hturn. unfold bind. now rewrite Hrun. }
    now rewrite (main_raise fuel _ Hmt).
Qed.

End MainClaims.

(** ** Runs on the small disk *)

Section Runs.

#[local] Existing Instance Toy.env.

Example suffix_examples :
  Str.suffix "a.icns" = ".icns"
  /\ Str.suffix "archive.tar.ICNS" = ".ICNS"
  /\ Str.suffix ".icns" = ""
  /\ Str.suffix "icns" = ""
  /\ Str.stem "archive.tar.ICNS" = "archive.tar".
Proof. repeat split. Qed.

Example top3_of_five :
  top3_of Toy.five
  = [Stat "e.icns" 0 9; Stat "b.icns" 10 7; Stat "d.icns" 10 7].
Proof. reflexivity. Qed.

Example sample_run :
  snd (convert_files Toy.start)
  = Ret (Some [Stat "a.icns" 100 120; Stat "b.Icns" 50 40])
  /\ emitted convert_files Toy.start
     = [Found 3; ErrorLine "broken.ICNS" "cannot identify image file"].
Proof. split; reflexivity. Qed.

Lemma top3_report_of_five :
  Toy.five <> []
  /\ exists sorted,
       stable_descending_sort converted_size Toy.five sorted
       /\ In Top3Header (emitted (print_summary Toy.five) Toy.start)
       /\ top3_entries (emitted (print_summary Toy.five) Toy.start) = firstn 3 sorted
       /\ List.length (firstn 3 sorted) = Nat.min 3 (List.length Toy.five)
       /\ forall a b, In a (firstn 3 sorted) -> In b (skipn 3 sorted) ->
                      converted_size b <= converted_size a.
Proof.
  assert (H : Toy.five <> []) by discriminate.
  split; [exact H|].
  exact (@top3_report_is_stable_descending_prefix Toy.env Toy.five Toy.start H).
Defined.

Lemma outcome_of_the_sample :
  exists w0 files,
    list_files Toy.start = (w0, Ret files)
    /\ let tried := attempts files (printing [Found (List.length files)] w0) in
       (2 <= List.length files)%nat
       /\ [Stat "a.icns" 100 120; Stat "b.Icns" 50 40] = results_of tried
       /\ (forall i fp,
              nth_error files i = Some fp ->
              ~ In (name fp) ["a.icns"; "b.Icns"] ->
              exists msg, nth_error tried i = Some (Raise (Exception msg)))
       /\ errors (emitted convert_files Toy.start) = failures (combine files tried)
       /\ (2 + List.length (errors (emitted convert_files Toy.start))
           = List.length files)%nat.
Proof.
  refine (@outcome_holds_exactly_the_converted_files Toy.env Toy.start
            (fst (convert_files Toy.start))
            [Stat "a.icns" 100 120; Stat "b.Icns" 50 40] _).
  vm_compute. reflexivity.
Defined.

Lemma broken_file_is_skipped :
  for_loop ([Toy.a_icns] ++ Toy.broken :: [Toy.b_icns]) [] Toy.start
  = for_loop [Toy.b_icns] [Stat "a.icns" 100 120]
      (printing [ErrorLine "broken.ICNS" "cannot identify image file"]
         (fst (convert_one Toy.broken (fst (for_loop [Toy.a_icns] [] Toy.start)))))
  /\ emitted (loop_body Toy.broken [Stat "a.icns" 100 120])
             (fst (for_loop [Toy.a_icns] [] Toy.start))
     = [ErrorLine "broken.ICNS" "cannot identify image file"]
  /\ (forall files stats w2 msg',
         snd (for_loop files stats w2) <> Raise (Exception msg')).
Proof.
  refine (@per_file_error_is_contained Toy.env [Toy.a_icns] [Toy.b_icns] Toy.broken Toy.start
            (fst (for_loop [Toy.a_icns] [] Toy.start))
            (fst (convert_one Toy.broken (fst (for_loop [Toy.a_icns] [] Toy.start))))
            [Stat "a.icns" 100 120] "cannot identify image file" _ _);
    vm_compute; reflexivity.
Defined.

Lemma files_of_the_sample :
  exists names,
    iterdir InputDir (fs Toy.start) = Ret names
    /\ [Toy.a_icns; Toy.broken; Toy.b_icns]
       = filter (fun f => regular (fs Toy.start) f && icns_suffix f)
                (map (Path InputDir) names)
    /\ forall f, In f [Toy.a_icns; Toy.broken; Toy.b_icns] <->
                 (In f (map (Path InputDir) names)
                  /\ is_file f (fs Toy.start) = Ret true
                  /\ Str.lower (Str.suffix (name f)) = ".icns").
Proof.
  exact (@discover_selects_regular_icns_files Toy.env Toy.start Toy.start
           [Toy.a_icns; Toy.broken; Toy.b_icns] eq_refl).
Defined.

Lemma all_files_fail_no_summary :
  main_turn Toy.all_fail
  = after_convert (Some [])
      (fst (convert_files
              (fst (ask_output_format
                      (printing [HeaderTitle; HeaderAuthor; Rule] Toy.all_fail)))))
  /\ emitted main_turn Toy.all_fail
     = [HeaderTitle; HeaderAuthor; Rule; FormatPrompt; Found 2;
        ErrorLine "x.icns" "cannot identify image file";
        ErrorLine "y.icns" "cannot identify image file";
        ReadyNext; PressEnterRestart; Exiting]
  /\ filter is_summary_line (emitted main_turn Toy.all_fail) = [].
Proof.
  destruct (@empty_outcome_skips_summary Toy.env Toy.all_fail
              (fst (ask_output_format
                      (printing [HeaderTitle; HeaderAuthor; Rule] Toy.all_fail)))
              (fst (convert_files
                      (fst (ask_output_format
                              (printing [HeaderTitle; HeaderAuthor; Rule]
                                        Toy.all_fail)))))
              "png" eq_refl eq_refl)
    as (Hturn & _ & Hfree & _).
  split; [exact Hturn|]. split; [reflexivity|exact Hfree].
Defined.

Lemma empty_cases_on_the_small_disk :
  (exists w',
      main_turn Sessions.nothing_twice = (w', Ret Continue)
      /\ emitted main_turn Sessions.nothing_twice
         = [HeaderTitle; HeaderAuthor; Rule; FormatPrompt;
            NoIcnsFiles; PressEnterReturn]
      /\ main 2 Sessions.nothing_twice = main 1 w'
      /\ exists more,
           emitted (main 3) Sessions.nothing_twice
           = [HeaderTitle; HeaderAuthor; Rule; FormatPrompt;
              NoIcnsFiles; PressEnterReturn;
              HeaderTitle; HeaderAuthor; Rule; FormatPrompt] ++ more)
  /\ (exists w',
        main_turn Sessions.corrupt_twice = after_convert (Some []) w'
        /\ exists w'',
             stdin w'' = ["1"; "q"]
             /\ main 2 Sessions.corrupt_twice = main 1 w'')
  /\ snd (main 2 Sessions.nothing_then_quit) = Raise (SystemExit 0).
Proof.
  split; [|split].
  - assert (Hask : ask_output_format
                     (printing [HeaderTitle; HeaderAuthor; Rule] Sessions.nothing_twice)
                   = (fst (ask_output_format
                             (printing [HeaderTitle; HeaderAuthor; Rule]
                                       Sessions.nothing_twice)), Ret "png"))
      by (vm_compute; reflexivity).
    destruct (@empty_cases_are_distinguished Toy.env _ _ _ 1%nat Hask) as (Hnone & _ & _).
    edestruct Hnone as (w' & _ & _ & Hturn & Hem & Hgo & Hmore).
    + vm_compute. reflexivity.
    + vm_compute. reflexivity.
    + vm_compute. reflexivity.
    + exists w'. auto.
  - assert (Hask : ask_output_format
                     (printing [HeaderTitle; HeaderAuthor; Rule] Sessions.corrupt_twice)
                   = (fst (ask_output_format
                             (printing [HeaderTitle; HeaderAuthor; Rule]
                                       Sessions.corrupt_twice)), Ret "png"))
      by (vm_compute; reflexivity).
    destruct (@empty_cases_are_distinguished Toy.env _ _ _ 1%nat Hask) as (_ & Hfail & _).
    edestruct (Hfail
                 (fst (list_files
                         (fst (ask_output_format
                                 (printing [HeaderTitle; HeaderAuthor; Rule]
                                           Sessions.corrupt_twice)))))
                 [Path InputDir "x.icns"; Path InputDir "y.icns"])
      as (w' & tail & Hconv & Hturn & _ & _ & _ & Hnext).
    + vm_compute. reflexivity.
    + discriminate.
    + repeat constructor; eexists; vm_compute; reflexivity.
    + exists w'. split; [exact Hturn|].
      apply (Hnext "" ["1"; "q"]).
      * assert (Hw : w' = fst (convert_files
                                 (fst (ask_output_format
                                         (printing [HeaderTitle; HeaderAuthor; Rule]
                                                   Sessions.corrupt_twice)))))
          by (now rewrite Hconv).
        rewrite Hw. vm_compute. reflexivity.
      * reflexivity.
  - assert (Hask : ask_output_format
                     (printing [HeaderTitle; HeaderAuthor; Rule]
                               Sessions.nothing_then_quit)
                   = (fst (ask_output_format
                             (printing [HeaderTitle; HeaderAuthor; Rule]
                                       Sessions.nothing_then_quit)), Ret "png"))
      by (vm_compute; reflexivity).
    destruct (@empty_cases_are_distinguished Toy.env _ _ _ 1%nat Hask) as (_ & _ & Hquit).
    edestruct Hquit as (_ & Hmain).
    + vm_compute. reflexivity.
    + vm_compute. reflexivity.
    + vm_compute. reflexivity.
    + exact Hmain.
Defined.

(** C9, as stated, fails: with no file found and q typed at the prompt
    the converter does not return [None]; it raises [SystemExit] and the
    caller starts no new turn. *)
Lemma no_files_then_quit_does_not_return :
  snd (list_files Toy.nothing_quit) = Ret []
  /\ snd (convert_files Toy.nothing_quit) = Raise (SystemExit 0)
  /\ snd (convert_files Toy.nothing_quit) <> Ret None
  /\ snd (main 5 (Toy.boot [] ["1"; "q"])) = Raise (SystemExit 0).
Proof.
  repeat split; try reflexivity. vm_compute. discriminate.
Qed.

End Runs.

Section AlbumRuns.

#[local] Existing Instance Album.env.

Lemma palette_image_is_converted :
  called (convert_one Toy.b_icns) Album.start
  = [CallOpen Toy.b_icns; CallLoad (Toy.Img "P" 40);
     CallConvert (Toy.Img "P" 40) "RGBA";
     CallSave (Toy.Img "RGBA" 40) (Path OutputDir "b.png");
     CallClose (Toy.Img "P" 40)]
  /\ fs (fst (convert_one Toy.b_icns Album.start))
     = fst (image_save (Toy.Img "RGBA" 40) (Path OutputDir "b.png") (fs Album.start))
  /\ Album.saved (fs (fst (convert_one Toy.b_icns Album.start)))
     = [(Path OutputDir "b.png", Toy.Img "RGBA" 40)].
Proof.
  destruct (@image_is_normalized_before_encoding Album.env Toy.b_icns Album.start
              50 (Toy.Img "P" 40) (Toy.Img "P" 40) eq_refl eq_refl eq_refl)
    as (_ & Hconv & _).
  destruct (Hconv ltac:(discriminate) ltac:(discriminate) (Toy.Img "RGBA" 40) eq_refl)
    as (Hdisk & _ & Hcalls).
  split; [exact Hcalls|]. split; [exact Hdisk|].
  rewrite Hdisk. reflexivity.
Defined.

End AlbumRuns.

(** * More of the script *)

(** ** One file: calls, sizes, and what the encoder is given *)

Section MoreBatch.

Context {E : Env}.

Lemma pil_convert_one fp w :
  pil (fst (convert_one fp w)) = pil w ++ calls_of fp (fs w).
Proof.
  unfold calls_of, calls_inside, convert_one, with_body. run.
  destruct (st_size fp (fs w)) as [n|e]; simpl; [|now rewrite app_nil_r].
  destruct (image_open fp (fs w)) as [opened|e]; simpl; [|reflexivity].
  destruct (image_load opened (fs w)) as [img|e]; simpl;
    [|now rewrite <- !app_assoc].
  destruct (needs_convert img); simpl.
  - destruct (image_convert img "RGBA") as [img'|e]; simpl;
      [|now rewrite <- !app_assoc].
    destruct (image_save img' (out_path_of fp) (fs w)) as [d [[]|e]]; simpl.
    + destruct (st_size (out_path_of fp) d); simpl; now rewrite <- !app_assoc.
    + now rewrite <- !app_assoc.
  - destruct (image_save img (out_path_of fp) (fs w)) as [d [[]|e]]; simpl.
    + destruct (st_size (out_path_of fp) d); simpl; now rewrite <- !app_assoc.
    + now rewrite <- !app_assoc.
Qed.

Lemma called_convert_one fp w : called (convert_one fp) w = calls_of fp (fs w).
Proof. apply called_steps, pil_convert_one. Qed.

Lemma calls_inside_neither fp r :
  Forall (fun c => opens_or_closes c = false) (calls_inside fp r).
Proof.
  unfold calls_inside. destruct r as [img|e]; [|constructor].
  destruct (needs_convert img).
  - destruct (image_convert img "RGBA"); repeat constructor.
  - repeat constructor.
Qed.

(** X1: the image library is not called at all when the size of the file
    cannot be read; when the file cannot be opened the only call is the
    attempt to open it; and once an image is open it is closed, once and
    as the last call for that file, whether loading, converting or saving
    went well or raised. *)
Theorem opened_image_is_always_closed (fp : path) (w : world) :
  (forall e, st_size fp (fs w) = Raise e -> called (convert_one fp) w = [])
  /\ (forall n e,
         st_size fp (fs w) = Ret n -> image_open fp (fs w) = Raise e ->
         called (convert_one fp) w = [CallOpen fp])
  /\ (forall n opened,
         st_size fp (fs w) = Ret n -> image_open fp (fs w) = Ret opened ->
         exists inside,
           called (convert_one fp) w
           = [CallOpen fp; CallLoad opened] ++ inside ++ [CallClose opened]
           /\ Forall (fun c => opens_or_closes c = false) inside).
Proof.
  rewrite called_convert_one. unfold calls_of. repeat split.
  - intros e ->. reflexivity.
  - intros n e -> ->. reflexivity.
  - intros n opened -> ->.
    exists (calls_inside fp (image_load opened (fs w))).
    split; [reflexivity|apply calls_inside_neither].
Qed.

Lemma needs_convert_false_inv img :
  needs_convert img = false ->
  image_mode img = "RGB" \/ image_mode img = "RGBA".
Proof.
  unfold needs_convert. intros H. apply negb_false_iff, orb_true_iff in H.
  destruct H as [H|H]; apply String.eqb_eq in H; auto.
Qed.

Lemma fs_convert_one fp w :
  fs (fst (convert_one fp w))
  = match encoder_input fp (fs w) with
    | Some img => fst (image_save img (out_path_of fp) (fs w))
    | None => fs w
    end.
Proof.
  unfold encoder_input, convert_one, with_body. run.
  destruct (st_size fp (fs w)) as [n|e]; simpl; [|reflexivity].
  destruct (image_open fp (fs w)) as [opened|e]; simpl; [|reflexivity].
  destruct (image_load opened (fs w)) as [img|e]; simpl; [|reflexivity].
  destruct (needs_convert img); simpl.
  - destruct (image_convert img "RGBA") as [img'|e]; simpl; [|reflexivity].
    destruct (image_save img' (out_path_of fp) (fs w)) as [d [[]|e]]; simpl;
      [|reflexivity].
    destruct (st_size (out_path_of fp) d); reflexivity.
  - destruct (image_save img (out_path_of fp) (fs w)) as [d [[]|e]]; simpl;
      [|reflexivity].
    destruct (st_size (out_path_of fp) d); reflexivity.
Qed.

Lemma convert_one_returns_saved fp w w1 s :
  convert_one fp w = (w1, Ret s) ->
  exists img,
    encoder_input fp (fs w) = Some img
    /\ image_save img (out_path_of fp) (fs w) = (fs w1, Ret tt).
Proof.
  unfold encoder_input, convert_one, with_body. run.
  destruct (st_size fp (fs w)) as [n|e]; [|discriminate]. simpl.
  destruct (image_open fp (fs w)) as [opened|e]; [|discriminate]. simpl.
  destruct (image_load opened (fs w)) as [img|e]; [|discriminate]. simpl.
  destruct (needs_convert img); simpl.
  - destruct (image_convert img "RGBA") as [img'|e]; simpl; [|discriminate].
    destruct (image_save img' (out_path_of fp) (fs w)) as [d [[]|e]] eqn:Hs;
      simpl; [|discriminate].
    destruct (st_size (out_path_of fp) d) as [c|e]; [|discriminate].
    intros H. inversion H; subst. simpl. now exists img'.
  - destruct (image_save img (out_path_of fp) (fs w)) as [d [[]|e]] eqn:Hs;
      simpl; [|discriminate].
    destruct (st_size (out_path_of fp) d) as [c|e]; [|discriminate].
    intros H. inversion H; subst. simpl. now exists img.
Qed.

Lemma logged_save_is_encoder_input fp d img p :
  In (CallSave img p) (calls_of fp d) ->
  encoder_input fp d = Some img /\ p = out_path_of fp.
Proof.
  unfold calls_of, calls_inside, encoder_input.
  destruct (st_size fp d); [|contradiction].
  destruct (image_open fp d) as [opened|e]; simpl;
    [|intros [H|[]]; discriminate].
  intros [H|[H|H]]; try discriminate.
  apply in_app_or in H. destruct H as [H|[H|[]]]; [|discriminate].
  destruct (image_load opened d) as [loaded|e]; [|contradiction].
  destruct (needs_convert loaded).
  - destruct H as [H|H]; [discriminate|].
    destruct (image_convert loaded "RGBA") as [img'|e]; [|contradiction].
    destruct H as [H|[]]. inversion H; subst. now split.
  - destruct H as [H|[]]. inversion H; subst. now split.
Qed.

Lemma encoder_input_mode fp d img :
  (forall i m i', image_convert i m = Ret i' -> image_mode i' = m) ->
  encoder_input fp d = Some img ->
  image_mode img = "RGB" \/ image_mode img = "RGBA".
Proof.
  intros Hconv. unfold encoder_input.
  destruct (st_size fp d); [|discriminate].
  destruct (image_open fp d) as [opened|e]; [|discriminate].
  destruct (image_load opened d) as [loaded|e]; [|discriminate].
  destruct (needs_convert loaded) eqn:Hn.
  - destruct (image_convert loaded "RGBA") as [img'|e] eqn:Hc; [|discriminate].
    intros H. inversion H; subst. right. eapply Hconv. eassumption.
  - intros H. inversion H; subst. now apply needs_convert_false_inv.
Qed.

(** X2: if a conversion, when it returns, returns an image of the mode
    asked for, then the encoder is only ever given an image of mode RGB
    or RGBA.  When processing a file returns a result, the disk it leaves
    is the one that saving such an image under the output path of the
    file left; whenever processing changes the disk at all, the change is
    that of saving such an image there; and a save on the list of calls
    is the save that was made, of that image at that path. *)
Theorem encoder_receives_rgb_or_rgba (fp : path) (w : world) :
  (forall i m i', image_convert i m = Ret i' -> image_mode i' = m) ->
  (forall w1 s,
      convert_one fp w = (w1, Ret s) ->
      exists img,
        (image_mode img = "RGB" \/ image_mode img = "RGBA")
        /\ image_save img (out_path_of fp) (fs w) = (fs w1, Ret tt))
  /\ (fs (fst (convert_one fp w)) <> fs w ->
      exists img,
        (image_mode img = "RGB" \/ image_mode img = "RGBA")
        /\ fs (fst (convert_one fp w))
           = fst (image_save img (out_path_of fp) (fs w)))
  /\ (forall img p,
         In (CallSave img p) (called (convert_one fp) w) ->
         (image_mode img = "RGB" \/ image_mode img = "RGBA")
         /\ p = out_path_of fp
         /\ fs (fst (convert_one fp w)) = fst (image_save img p (fs w))).
Proof.
  intros Hconv. split; [|split].
  - intros w1 s H. destruct (convert_one_returns_saved _ _ H) as (img & Hi & Hs).
    exists img. split; [eapply encoder_input_mode; eassumption|exact Hs].
  - rewrite fs_convert_one.
    destruct (encoder_input fp (fs w)) as [img|] eqn:Hi; [|contradiction].
    intros _. exists img. split; [eapply encoder_input_mode; eassumption|reflexivity].
  - intros img p. rewrite called_convert_one. intros H.
    apply logged_save_is_encoder_input in H. destruct H as [Hi ->].
    split; [eapply encoder_input_mode; eassumption|]. split; [reflexivity|].
    rewrite fs_convert_one, Hi. reflexivity.
Qed.

(** X3: the result recorded for a file carries the name of the file, the
    size the disk gave for it before it was opened, and the size the disk
    gives for the output path once the image is saved there: the disk the
    converted size is read from is the one the save left. *)
Theorem result_records_sizes_read_from_disk
    (fp : path) (w w1 : world) (s : stat_entry) :
  convert_one fp w = (w1, Ret s) ->
  filename s = name fp
  /\ st_size fp (fs w) = Ret (original_size s)
  /\ st_size (out_path_of fp) (fs w1) = Ret (converted_size s)
  /\ exists img, image_save img (out_path_of fp) (fs w) = (fs w1, Ret tt).
Proof.
  unfold convert_one, with_body. run.
  destruct (st_size fp (fs w)) as [n|e]; [|discriminate]. simpl.
  destruct (image_open fp (fs w)) as [opened|e]; [|discriminate]. simpl.
  destruct (image_load opened (fs w)) as [img|e]; [|discriminate]. simpl.
  destruct (needs_convert img); simpl.
  - destruct (image_convert img "RGBA") as [img'|e]; simpl; [|discriminate].
    destruct (image_save img' (out_path_of fp) (fs w)) as [d [[]|e]] eqn:Hs;
      simpl; [|discriminate].
    destruct (st_size (out_path_of fp) d) as [c|e] eqn:Hc; [|discriminate].
    intros H. inversion H; subst. simpl. repeat split; try assumption.
    now exists img'.
  - destruct (image_save img (out_path_of fp) (fs w)) as [d [[]|e]] eqn:Hs;
      simpl; [|discriminate].
    destruct (st_size (out_path_of fp) d) as [c|e] eqn:Hc; [|discriminate].
    intros H. inversion H; subst. simpl. repeat split; try assumption.
    now exists img.
Qed.

End MoreBatch.

(** ** The loop and the converter as a whole *)

Section MoreLoop.

Context {E : Env}.

Lemma for_loop_order files : forall w w' stats,
  for_loop files [] w = (w', Ret stats) ->
  exists keep,
    List.length keep = List.length files
    /\ map filename stats = map name (kept keep files).
Proof.
  induction files as [|fp rest IH]; intros w w' stats H.
  - inversion H; subst. now exists [].
  - simpl in H. unfold bind in H.
    destruct (convert_one fp w) as [w1 [s|[msg| |c]]] eqn:Hc.
    + rewrite (loop_body_ok fp [] w Hc) in H. rewrite for_loop_stats in H.
      destruct (for_loop rest [] w1) as [w2 [st|e]] eqn:Hl; [|discriminate].
      inversion H; subst. destruct (IH _ _ _ Hl) as (keep & Hlen & Hk).
      exists (true :: keep). simpl. split; [now rewrite Hlen|].
      rewrite Hk. f_equal. eapply convert_one_filename. exact Hc.
    + rewrite (loop_body_caught fp [] w Hc) in H.
      destruct (IH _ _ _ H) as (keep & Hlen & Hk).
      exists (false :: keep). simpl. split; [now rewrite Hlen|exact Hk].
    + rewrite (loop_body_escapes fp [] w Hc eq_refl) in H. discriminate.
    + rewrite (loop_body_escapes fp [] w Hc eq_refl) in H. discriminate.
Qed.

(** X4: the results come in the order the files were found: the names on
    the outcome are the names of the discovered files with some of them
    left out, nothing moved and nothing repeated. *)
Theorem outcome_keeps_discovery_order (w w' : world) (stats : list stat_entry) :
  convert_files w = (w', Ret (Some stats)) ->
  exists w0 files keep,
    list_files w = (w0, Ret files)
    /\ List.length keep = List.length files
    /\ map filename stats = map name (kept keep files).
Proof.
  intros H. destruct (convert_files_returns w H) as (w0 & files & Hl & _ & Hloop).
  destruct (for_loop_order _ _ Hloop) as (keep & Hlen & Hk).
  now exists w0, files, keep.
Qed.

(** X5: when the converter returns, it returns [None] exactly when no
    file was found; when files were found it has printed their number
    first and has read nothing of what the operator typed. *)
Theorem none_exactly_when_nothing_found
    (w w' : world) (r : option (list stat_entry)) :
  convert_files w = (w', Ret r) ->
  exists w0 files,
    list_files w = (w0, Ret files)
    /\ (r = None <-> files = [])
    /\ (files <> [] ->
        stdin w' = stdin w
        /\ exists rest,
             emitted convert_files w = Found (List.length files) :: rest).
Proof.
  intros H. destruct r as [stats|].
  - destruct (convert_files_returns w H) as (w0 & files & Hl & Hne & Hloop).
    exists w0, files. split; [exact Hl|]. split.
    + split; [discriminate|contradiction].
    + intros _. destruct (for_loop_returns _ _ Hloop) as (_ & _ & Hin & Hout).
      destruct (list_files_terminal _ Hl) as [Hin0 Hout0]. split.
      * rewrite Hin. simpl. exact Hin0.
      * eexists. unfold emitted. rewrite H. simpl. rewrite Hout. simpl.
        rewrite Hout0, <- app_assoc, skipn_length_app. reflexivity.
  - unfold convert_files in H. unfold bind at 1 in H.
    destruct (list_files w) as [w0 [[|fp rest]|e]] eqn:Hl; [| |discriminate].
    + exists w0, []. split; [reflexivity|]. split; [tauto|contradiction].
    + exfalso. unfold bind at 1 in H. rewrite print_run in H. unfold bind in H.
      destruct (for_loop _ _ _) as [w2 [st|e]]; discriminate.
Qed.

(** X6: what is raised while a file is processed and is no [Exception],
    as when the operator presses Ctrl-C, is not caught by the loop: the
    loop ends there with it, in the world that file's processing left, so
    no error line is printed and the files that follow are not touched;
    the last calls to the image library are those made for that file. *)
Theorem interrupt_leaves_the_loop
    (pre rest : list path) (fp : path) (w w0 w1 : world)
    (stats0 : list stat_entry) (e : raised) :
  for_loop pre [] w = (w0, Ret stats0) ->
  convert_one fp w0 = (w1, Raise e) ->
  is_exception e = false ->
  for_loop (pre ++ fp :: rest) [] w = (w1, Raise e)
  /\ stdout w1 = stdout w0
  /\ pil w1 = pil w0 ++ called (convert_one fp) w0.
Proof.
  intros Hpre Hc He. repeat split.
  - rewrite for_loop_app, Hpre. simpl. unfold bind.
    now rewrite (loop_body_escapes fp stats0 w0 Hc He).
  - destruct (convert_one_quiet fp w0) as [_ Hout]. now rewrite Hc in Hout.
  - rewrite called_convert_one. pose proof (pil_convert_one fp w0) as H.
    now rewrite Hc in H.
Qed.

Lemma comprehension_world l : forall w, fst (comprehension is_icns l w) = w.
Proof.
  induction l as [|f l IH]; intros w; simpl; [reflexivity|].
  unfold bind. rewrite is_icns_run.
  destruct (is_file f (fs w)); [|reflexivity].
  specialize (IH w). destruct (comprehension is_icns l w) as [w1 [x|e]];
    simpl in *; subst; reflexivity.
Qed.

Lemma list_files_world w :
  exists d, fst (list_files w) = World d (stdin w) (stdout w) (pil w).
Proof.
  unfold list_files, bind, action.
  destruct (mkdir InputDir (fs w)) as [d1 [[]|e]]; simpl; [|now exists d1].
  destruct (mkdir OutputDir d1) as [d2 [[]|e]]; simpl; [|now exists d2].
  unfold discover, bind, query. simpl.
  destruct (iterdir InputDir d2); simpl; [|now exists d2].
  rewrite (surjective_pairing (comprehension _ _ _)), comprehension_world.
  now exists d2.
Qed.

(** X7: an error raised before the loop starts, while the two folders
    are made or the input folder is listed, is not caught: the converter
    raises it, having printed nothing and called the image library for no
    file, and the turn of the caller ends with it after the header and
    the format prompt, with no summary and no closing prompt. *)
Theorem error_before_the_loop_ends_the_turn
    (w w1 w2 : world) (fmt : string) (e : raised) :
  ask_output_format (printing [HeaderTitle; HeaderAuthor; Rule] w) = (w1, Ret fmt) ->
  list_files w1 = (w2, Raise e) ->
  convert_files w1 = (w2, Raise e)
  /\ emitted convert_files w1 = []
  /\ called convert_files w1 = []
  /\ main_turn w = (w2, Raise e)
  /\ emitted main_turn w = [HeaderTitle; HeaderAuthor; Rule; FormatPrompt].
Proof.
  intros Hask Hl.
  assert (Hconv : convert_files w1 = (w2, Raise e)).
  { unfold convert_files, bind. now rewrite Hl. }
  assert (Hturn : main_turn w = (w2, Raise e)).
  { unfold main_turn. unfold bind at 1. rewrite print_header_run.
    unfold bind at 1. rewrite Hask. unfold bind. now rewrite Hconv. }
  destruct (list_files_world w1) as (d & Hw). rewrite Hl in Hw. simpl in Hw.
  repeat split; try assumption.
  - unfold emitted. rewrite Hconv, Hw. simpl.
    rewrite <- (app_nil_r (stdout w1)) at 2. apply skipn_length_app.
  - unfold called. rewrite Hconv, Hw. simpl.
    rewrite <- (app_nil_r (pil w1)) at 2. apply skipn_length_app.
  - unfold emitted. rewrite Hturn, Hw. simpl.
    rewrite (ask_output_format_returns _ Hask). simpl.
    rewrite <- app_assoc. apply skipn_length_app.
Qed.

End MoreLoop.

(** ** The caller: turns, typed lines and the summary *)

Section MoreMain.

Context {E : Env}.

Lemma input_choice_reads_one w w1 c :
  input_choice w = (w1, Ret c) -> exists l, stdin w = l :: stdin w1.
Proof.
  unfold input_choice, input, bind, ret.
  destruct (stdin w) as [|l rest] eqn:Hin; [discriminate|].
  intros H. inversion H. now exists l.
Qed.

Lemma ask_output_format_reads_one w w1 fmt :
  ask_output_format w = (w1, Ret fmt) -> exists l, stdin w = l :: stdin w1.
Proof.
  unfold ask_output_format. unfold bind at 1. rewrite print_run.
  unfold bind at 1.
  destruct (input_choice _) as [w2 [ch|e]] eqn:Hc; [|discriminate].
  apply input_choice_reads_one in Hc. simpl in Hc.
  destruct (is_quit ch).
  - unfold bind. rewrite print_run. discriminate.
  - unfold ret. intros H. inversion H; subst. exact Hc.
Qed.

Lemma convert_files_none_reads_one w w1 :
  convert_files w = (w1, Ret None) -> exists l, stdin w = l :: stdin w1.
Proof.
  unfold convert_files. unfold bind at 1. intros H.
  destruct (list_files w) as [w0 [[|fp rest]|e]] eqn:Hl; [| |discriminate].
  - destruct (list_files_terminal _ Hl) as [Hin0 _].
    unfold bind at 1 in H. rewrite print_run in H.
    unfold bind at 1 in H. rewrite print_run in H.
    unfold bind at 1 in H.
    destruct (input_choice _) as [w2 [c|e]] eqn:Hc; [|discriminate].
    apply input_choice_reads_one in Hc. simpl in Hc.
    destruct (is_quit c).
    + unfold bind in H. rewrite print_run in H. discriminate.
    + unfold ret in H. inversion H; subst. now rewrite <- Hin0.
  - unfold bind at 1 in H. rewrite print_run in H. unfold bind in H.
    destruct (for_loop _ _ _) as [w2 [st|e]]; discriminate.
Qed.

Lemma convert_files_some_reads_none w w1 stats :
  convert_files w = (w1, Ret (Some stats)) -> stdin w1 = stdin w.
Proof.
  intros H. destruct (convert_files_returns w H) as (w0 & files & Hl & _ & Hloop).
  destruct (for_loop_returns _ _ Hloop) as (_ & _ & Hin & _).
  destruct (list_files_terminal _ Hl) as [Hin0 _].
  rewrite Hin. simpl. exact Hin0.
Qed.

Lemma after_convert_some_run stats w :
  exists ls,
    after_convert (Some stats) w
    = bind input_choice
        (fun choice => if is_quit choice
                       then bind (print Exiting) (fun _ => ret Break)
                       else ret Continue)
        (printing (ls ++ [ReadyNext; PressEnterRestart]) w)
    /\ ls = match stats with
            | [] => []
            | _ :: _ => totals_lines stats ++ top3_lines stats
            end.
Proof.
  eexists. split; [|reflexivity].
  unfold after_convert. unfold bind at 1.
  destruct stats as [|s rest].
  - unfold ret at 1. unfold bind at 1. rewrite print_run.
    unfold bind at 1. rewrite print_run. now rewrite printing_printing.
  - rewrite print_summary_run. unfold bind at 1. rewrite print_run.
    unfold bind at 1. rewrite print_run. now rewrite !printing_printing.
Qed.

Lemma after_convert_some_reads_one stats w w1 c :
  after_convert (Some stats) w = (w1, Ret c) -> exists l, stdin w = l :: stdin w1.
Proof.
  destruct (after_convert_some_run stats w) as (ls & -> & _).
  unfold bind at 1.
  destruct (input_choice _) as [w2 [ch|e]] eqn:Hc; [|discriminate].
  apply input_choice_reads_one in Hc. simpl in Hc.
  destruct (is_quit ch).
  - unfold bind. rewrite print_run. unfold ret. intros H. inversion H; subst.
    exact Hc.
  - unfold ret. intros H. inversion H; subst. exact Hc.
Qed.

(** X8: a turn of the caller that ends normally has read exactly two of
    the lines typed: the answer to the format prompt, and the answer to
    the prompt that follows, be it the one shown when nothing was found
    or the closing one. *)
Theorem turn_reads_two_lines (w w1 : world) (c : ctl) :
  main_turn w = (w1, Ret c) ->
  exists l1 l2, stdin w = l1 :: l2 :: stdin w1.
Proof.
  unfold main_turn. unfold bind at 1. rewrite print_header_run.
  unfold bind at 1.
  destruct (ask_output_format _) as [w2 [fmt|e]] eqn:Hask; [|discriminate].
  apply ask_output_format_reads_one in Hask. simpl in Hask.
  destruct Hask as (l1 & Hl1).
  unfold bind at 1.
  destruct (convert_files w2) as [w3 [[stats|]|e]] eqn:Hconv; [| |discriminate].
  - intros Hafter. apply convert_files_some_reads_none in Hconv.
    apply after_convert_some_reads_one in Hafter. destruct Hafter as (l2 & Hl2).
    exists l1, l2. now rewrite Hl1, <- Hconv, Hl2.
  - simpl. unfold ret. intros H. inversion H; subst.
    apply convert_files_none_reads_one in Hconv. destruct Hconv as (l2 & Hl2).
    exists l1, l2. now rewrite Hl1, Hl2.
Qed.

(** X9: the loop of the caller comes to an end on every finite sequence
    of typed lines, by a quit, an exit or an error: allowed more turns
    than half the number of lines typed, it never uses them all. *)
Theorem main_ends_on_finite_input (fuel : nat) (w : world) :
  (List.length (stdin w) < 2 * fuel)%nat -> snd (main fuel w) <> Ret None.
Proof.
  revert w. induction fuel as [|fuel IH]; intros w Hlt; [lia|].
  simpl. unfold bind.
  destruct (main_turn w) as [w1 [[|]|e]] eqn:Hturn; simpl; try discriminate.
  apply turn_reads_two_lines in Hturn. destruct Hturn as (l1 & l2 & Hin).
  apply IH. rewrite Hin in Hlt. simpl in Hlt. lia.
Qed.

(** X10: in a turn in which the converter returns at least one result,
    the summary of those results is printed in full, totals then top-3
    report, and the closing prompt comes right after it. *)
Theorem summary_printed_for_nonempty_outcome
    (w w1 w2 : world) (fmt : string) (stats : list stat_entry) :
  ask_output_format (printing [HeaderTitle; HeaderAuthor; Rule] w) = (w1, Ret fmt) ->
  convert_files w1 = (w2, Ret (Some stats)) ->
  stats <> [] ->
  main_turn w = after_convert (Some stats) w2
  /\ exists tail,
       emitted (after_convert (Some stats)) w2
       = emitted (print_summary stats) w2
           ++ ReadyNext :: PressEnterRestart :: tail
       /\ (tail = [] \/ tail = [Exiting])
       /\ In ConversionComplete (emitted (print_summary stats) w2)
       /\ top3_entries (emitted (after_convert (Some stats)) w2) = top3_of stats.
Proof.
  intros Hask Hconv Hne. split.
  - unfold main_turn. unfold bind at 1. rewrite print_header_run.
    unfold bind at 1. rewrite Hask. unfold bind at 1. now rewrite Hconv.
  - destruct (after_convert_some_run stats w2) as (ls & Hrun & Hls).
    destruct stats as [|s rest]; [contradiction|].
    rewrite emitted_print_summary.
    assert (Hem : exists tail,
               emitted (after_convert (Some (s :: rest))) w2
               = ls ++ ReadyNext :: PressEnterRestart :: tail
               /\ (tail = [] \/ tail = [Exiting])).
    { unfold emitted. rewrite Hrun.
      unfold input_choice, input, bind, ret. simpl.
      destruct (stdin w2) as [|l more]; simpl.
      - exists []. split; [apply skipn_length_app|auto].
      - destruct (is_quit _); simpl.
        + exists [Exiting]. split; [|auto].
          rewrite <- !app_assoc. apply skipn_length_app.
        + exists []. split; [apply skipn_length_app|auto]. }
    destruct Hem as (tail & Hem & Htail). exists tail. subst ls.
    split; [exact Hem|]. split; [exact Htail|]. split.
    + now left.
    + rewrite Hem, top3_entries_app. rewrite <- emitted_print_summary with (w := w2).
      rewrite top3_entries_summary.
      destruct Htail as [-> | ->]; simpl; now rewrite app_nil_r.
Qed.

End MoreMain.

(** ** The top-3 report, again *)

Section MoreSummary.

(** X11: the top-3 report does not depend on how the sort goes about it:
    whatever list is a stable descending sort of the outcome by
    [converted_size], its first three entries are the ones reported. *)
Theorem top3_fixed_by_stable_sort (stats sorted : list stat_entry) :
  stable_descending_sort converted_size stats sorted ->
  top3_of stats = firstn 3 sorted.
Proof.
  intros H. unfold top3_of.
  now rewrite (stable_descending_sort_unique H).
Qed.

(** X12: with three results or fewer the report lists every one of them,
    once each, largest first. *)
Theorem top3_of_few_lists_them_all (stats : list stat_entry) :
  (List.length stats <= 3)%nat ->
  Permutation (top3_of stats) stats
  /\ descending converted_size (top3_of stats).
Proof.
  intros Hlen. unfold top3_of.
  pose proof (sorted_reverse_perm converted_size stats) as Hp.
  rewrite firstn_all2 by (rewrite (Permutation_length Hp); exact Hlen).
  split; [exact Hp|apply sorted_reverse_descending].
Qed.

End MoreSummary.

(** ** Names: what is selected, where it is written, what quits *)

Section MoreNames.

Local Open Scope string_scope.

Lemma lower_ascii_dot c : Ascii.eqb (Str.lower_ascii c) "." = Ascii.eqb c ".".
Proof.
  destruct c as [[] [] [] [] [] [] [] []]; reflexivity.
Qed.

Lemma length_lower s : String.length (Str.lower s) = String.length s.
Proof. induction s; simpl; congruence. Qed.

Lemma rfind_dot_lower s : Str.rfind_dot (Str.lower s) = Str.rfind_dot s.
Proof.
  induction s as [|c s IH]; simpl; [reflexivity|].
  rewrite IH, lower_ascii_dot. reflexivity.
Qed.

Lemma length_append_string a b :
  String.length (a ++ b) = (String.length a + String.length b)%nat.
Proof. induction a; simpl; congruence. Qed.

Lemma rfind_dot_append base ext i :
  Str.rfind_dot ext = Some i ->
  Str.rfind_dot (base ++ ext) = Some (String.length base + i)%nat.
Proof.
  intros H. induction base as [|c base IH]; simpl; [exact H|].
  now rewrite IH.
Qed.

Lemma substring_prefix base ext :
  substring 0 (String.length base) (base ++ ext) = base.
Proof. induction base; simpl; [now destruct ext|congruence]. Qed.

Lemma substring_whole s : substring 0 (String.length s) s = s.
Proof. induction s; simpl; congruence. Qed.

Lemma substring_suffix base ext :
  substring (String.length base) (String.length ext) (base ++ ext) = ext.
Proof. induction base; simpl; [apply substring_whole|assumption]. Qed.

Lemma substring_split s : forall i,
  (i <= String.length s)%nat ->
  substring 0 i s ++ substring i (String.length s - i) s = s.
Proof.
  induction s as [|c s IH]; intros [|i] Hi; simpl in *.
  - reflexivity.
  - lia.
  - now rewrite substring_whole.
  - rewrite IH by lia. reflexivity.
Qed.

Lemma rfind_dot_bound s i :
  Str.rfind_dot s = Some i -> (i < String.length s)%nat.
Proof.
  revert i. induction s as [|c s IH]; simpl; intros i H; [discriminate|].
  destruct (Str.rfind_dot s) as [j|].
  - inversion H; subst. specialize (IH j eq_refl). lia.
  - destruct (Ascii.eqb c "."); inversion H; subst. lia.
Qed.

(** A name made of a base and one of the spellings of the extension. *)
Lemma suffix_and_stem_of_icns base ext :
  base <> "" -> Str.lower ext = ".icns" ->
  Str.suffix (base ++ ext) = ext /\ Str.stem (base ++ ext) = base.
Proof.
  intros Hb He.
  assert (Hdot : Str.rfind_dot ext = Some 0%nat).
  { rewrite <- rfind_dot_lower, He. reflexivity. }
  assert (Hlen : String.length ext = 5%nat).
  { rewrite <- length_lower, He. reflexivity. }
  assert (Hpos : (0 < String.length base)%nat).
  { destruct base; [contradiction|simpl; lia]. }
  unfold Str.suffix, Str.stem.
  rewrite (@rfind_dot_append base ext 0%nat Hdot), length_append_string, Hlen, Nat.add_0_r.
  replace ((0 <? String.length base)%nat
           && (String.length base <? String.length base + 5 - 1)%nat)
    with true.
  - replace (String.length base + 5 - String.length base)%nat
      with (String.length ext) by lia.
    split; [apply substring_suffix|apply substring_prefix].
  - symmetry. apply andb_true_iff. split; apply Nat.ltb_lt; lia.
Qed.

(** X13: a name has the extension the listing looks for exactly when it
    is a non-empty base followed by [.icns] in any mix of upper and lower
    case; a file named [.icns] alone has no extension and is left out. *)
Theorem icns_suffix_iff_base_and_extension (f : path) :
  icns_suffix f = true <->
  exists base ext,
    name f = base ++ ext /\ base <> "" /\ Str.lower ext = ".icns".
Proof.
  unfold icns_suffix. rewrite String.eqb_eq. split.
  - intros H. exists (Str.stem (name f)), (Str.suffix (name f)).
    revert H. unfold Str.suffix, Str.stem.
    destruct (Str.rfind_dot (name f)) as [i|] eqn:Hi; [|discriminate].
    destruct ((0 <? i)%nat && (i <? String.length (name f) - 1)%nat) eqn:Hc;
      [|discriminate].
    apply andb_true_iff in Hc. destruct Hc as [H0 H1].
    apply Nat.ltb_lt in H0, H1. intros H. repeat split.
    + symmetry. apply substring_split. lia.
    + destruct (name f) as [|c s]; [simpl in H1; lia|].
      destruct i; [lia|]. discriminate.
    + exact H.
  - intros (base & ext & Hn & Hb & He). rewrite Hn.
    destruct (@suffix_and_stem_of_icns base ext Hb He) as [-> _]. exact He.
Qed.

(** X14: an icon is written to the output folder under its base name
    followed by [.png]; so two icons whose names differ only in the case
    of the extension are written to the same file. *)
Theorem output_name_replaces_extension (d : dir) (base ext : string) :
  base <> "" -> Str.lower ext = ".icns" ->
  out_path_of (Path d (base ++ ext)) = Path OutputDir (base ++ ".png")
  /\ forall ext', Str.lower ext' = ".icns" ->
                  out_path_of (Path d (base ++ ext'))
                  = out_path_of (Path d (base ++ ext)).
Proof.
  intros Hb He. unfold out_path_of. simpl.
  destruct (@suffix_and_stem_of_icns base ext Hb He) as [_ ->]. split; [reflexivity|].
  intros ext' He'. now destruct (@suffix_and_stem_of_icns base ext' Hb He') as [_ ->].
Qed.

Lemma append_assoc_string (a b c : string) :
  ((a ++ b) ++ c = a ++ (b ++ c))%string.
Proof. induction a; simpl; congruence. Qed.

Lemma append_nil_r_string (a : string) : (a ++ "" = a)%string.
Proof. induction a; simpl; congruence. Qed.

Lemma in_whitespace cp :
  existsb (N.eqb cp) whitespace_code_points = true ->
  In cp whitespace_code_points.
Proof.
  intros H. apply existsb_exists in H. destruct H as (x & Hx & Heq).
  apply N.eqb_eq in Heq. now subst.
Qed.

(** Each whitespace character of Python is dropped from the front. *)
Lemma lstrip_whitespace cp s :
  In cp whitespace_code_points -> Str.lstrip (utf8 cp ++ s) = Str.lstrip s.
Proof.
  unfold whitespace_code_points. intros H.
  repeat (destruct H as [<-|H]; [reflexivity|]). contradiction.
Qed.

Lemma lstrip_encode cps s :
  Forall (fun cp => In cp whitespace_code_points) cps ->
  Str.lstrip (encode cps ++ s) = Str.lstrip s.
Proof.
  induction 1 as [|cp cps Hcp _ IH]; cbn [encode]; [reflexivity|].
  now rewrite append_assoc_string, lstrip_whitespace.
Qed.

Lemma plain_char_lstrip c s :
  plain_char c = true -> Str.lstrip (String c s) = String c s.
Proof.
  unfold plain_char. intros H. apply andb_true_iff in H. destruct H as [Hs Hc].
  apply negb_true_iff in Hs. apply Nat.ltb_lt in Hc.
  cbn [Str.lstrip]. rewrite Hs.
  destruct s as [|b s2]; [reflexivity|].
  unfold Str.is_space2.
  replace (nat_of_ascii c =? 194)%nat with false
    by (symmetry; apply Nat.eqb_neq; lia).
  cbn [andb]. destruct s2 as [|d s3]; [reflexivity|].
  unfold Str.is_space3.
  replace (nat_of_ascii c =? 225)%nat with false
    by (symmetry; apply Nat.eqb_neq; lia).
  replace (nat_of_ascii c =? 226)%nat with false
    by (symmetry; apply Nat.eqb_neq; lia).
  replace (nat_of_ascii c =? 227)%nat with false
    by (symmetry; apply Nat.eqb_neq; lia).
  reflexivity.
Qed.

Lemma rstrip_of_blank s : Str.lstrip s = "" -> Str.rstrip s = "".
Proof.
  destruct s as [|c s]; [reflexivity|]. intros H.
  cbn [Str.rstrip]. now rewrite H.
Qed.

Lemma rstrip_plain core pad :
  plain core = true -> Str.lstrip pad = "" -> Str.rstrip (core ++ pad) = core.
Proof.
  intros Hp Hpad. induction core as [|c core IH].
  - simpl. now apply rstrip_of_blank.
  - simpl in Hp. apply andb_true_iff in Hp. destruct Hp as [Hc Hp].
    change (String c core ++ pad) with (String c (core ++ pad)).
    cbn [Str.rstrip]. rewrite (@plain_char_lstrip c (core ++ pad) Hc).
    now rewrite (IH Hp).
Qed.

Lemma strip_padded pre core post :
  Forall (fun cp => In cp whitespace_code_points) pre ->
  Forall (fun cp => In cp whitespace_code_points) post ->
  plain core = true -> core <> "" ->
  Str.strip (encode pre ++ core ++ encode post) = core.
Proof.
  intros Hpre Hpost Hp Hne. unfold Str.strip.
  rewrite (@lstrip_encode pre _ Hpre).
  destruct core as [|c core]; [contradiction|].
  pose proof Hp as Hp'. simpl in Hp'. apply andb_true_iff in Hp'.
  destruct Hp' as [Hc _].
  change (String c core ++ encode post) with (String c (core ++ encode post)).
  rewrite (@plain_char_lstrip c _ Hc).
  change (String c (core ++ encode post)) with (String c core ++ encode post).
  apply rstrip_plain; [exact Hp|].
  rewrite <- (append_nil_r_string (encode post)).
  now rewrite (@lstrip_encode post "" Hpost).
Qed.

(** And nothing else is: a string that [lstrip] changes starts with one
    of them. *)
Lemma lstrip_step s :
  Str.lstrip s = s
  \/ exists cp rest,
       In cp whitespace_code_points
       /\ s = utf8 cp ++ rest
       /\ Str.lstrip s = Str.lstrip rest.
Proof.
  destruct s as [|a s1]; [now left|]. cbn [Str.lstrip].
  destruct (Str.is_space a) eqn:Ha.
  { right. exists (N_of_ascii a), s1.
    destruct a as [[] [] [] [] [] [] [] []]; try discriminate Ha;
      (split; [apply in_whitespace; reflexivity|split; reflexivity]). }
  destruct s1 as [|b s2]; [now left|].
  destruct (Str.is_space2 a b) eqn:Hab.
  { right.
    destruct a as [[] [] [] [] [] [] [] []]; try discriminate Hab;
      destruct b as [[] [] [] [] [] [] [] []]; try discriminate Hab.
    - exists 133%N, s2.
      split; [apply in_whitespace; reflexivity|split; reflexivity].
    - exists 160%N, s2.
      split; [apply in_whitespace; reflexivity|split; reflexivity]. }
  destruct s2 as [|c s3]; [now left|].
  destruct (Str.is_space3 a b c) eqn:Habc; [|now left].
  right.
  destruct a as [[] [] [] [] [] [] [] []]; try discriminate Habc;
    destruct b as [[] [] [] [] [] [] [] []]; try discriminate Habc;
    destruct c as [[] [] [] [] [] [] [] []]; try discriminate Habc;
    match goal with
    | |- exists cp rest, _ /\ String ?x (String ?y (String ?z _)) = _ /\ _ =>
        exists ((N_of_ascii x - 224) * 4096 + (N_of_ascii y - 128) * 64
                + (N_of_ascii z - 128))%N, s3
    end;
    (split; [apply in_whitespace; reflexivity|split; reflexivity]).
Qed.

Lemma utf8_length cp : (1 <= String.length (utf8 cp))%nat.
Proof.
  unfold utf8. destruct (cp <? 128)%N; [simpl; lia|].
  destruct (cp <? 2048)%N; simpl; lia.
Qed.

Lemma lstrip_split_bounded n : forall s,
  (String.length s <= n)%nat ->
  exists cps,
    Forall (fun cp => In cp whitespace_code_points) cps
    /\ s = encode cps ++ Str.lstrip s.
Proof.
  induction n as [|n IH]; intros s Hlen.
  - destruct s; [|simpl in Hlen; lia]. exists []. now split.
  - destruct (lstrip_step s) as [Hs|(cp & rest & Hcp & Hs & Hl)].
    + exists []. split; [constructor|]. now rewrite Hs.
    + assert (Hr : (String.length rest <= n)%nat).
      { rewrite Hs, length_append_string in Hlen.
        pose proof (utf8_length cp). lia. }
      destruct (IH rest Hr) as (cps & Hall & Hrest).
      exists (cp :: cps). split; [now constructor|].
      cbn [encode]. rewrite append_assoc_string, Hl, <- Hrest. exact Hs.
Qed.

Lemma lstrip_split s :
  exists cps,
    Forall (fun cp => In cp whitespace_code_points) cps
    /\ s = encode cps ++ Str.lstrip s.
Proof. apply (@lstrip_split_bounded (String.length s) s). lia. Qed.

Lemma rstrip_split s :
  exists cps,
    Forall (fun cp => In cp whitespace_code_points) cps
    /\ s = Str.rstrip s ++ encode cps.
Proof.
  induction s as [|c s IH].
  - exists []. now split.
  - cbn [Str.rstrip]. destruct (Str.lstrip (String c s)) as [|a t] eqn:Hl.
    + destruct (lstrip_split (String c s)) as (cps & Hall & Hs).
      exists cps. split; [exact Hall|].
      rewrite Hl, append_nil_r_string in Hs. exact Hs.
    + destruct IH as (cps & Hall & Hs). exists cps. split; [exact Hall|].
      simpl. now rewrite <- Hs.
Qed.

(** What is typed is what [strip] keeps, with whitespace before and
    after. *)
Lemma strip_split s :
  exists pre post,
    Forall (fun cp => In cp whitespace_code_points) pre
    /\ Forall (fun cp => In cp whitespace_code_points) post
    /\ s = encode pre ++ Str.strip s ++ encode post.
Proof.
  destruct (lstrip_split s) as (pre & Hpre & Hs).
  destruct (rstrip_split (Str.lstrip s)) as (post & Hpost & Hl).
  exists pre, post. split; [exact Hpre|]. split; [exact Hpost|].
  unfold Str.strip. now rewrite <- Hl.
Qed.

Lemma plain_char_lower c : plain_char (Str.lower_ascii c) = plain_char c.
Proof.
  destruct c as [[] [] [] [] [] [] [] []]; reflexivity.
Qed.

Lemma plain_lower s : plain (Str.lower s) = plain s.
Proof.
  induction s as [|c s IH]; simpl; [reflexivity|].
  now rewrite IH, plain_char_lower.
Qed.

Lemma quit_word_padded pre core post :
  Forall (fun cp => In cp whitespace_code_points) pre ->
  Forall (fun cp => In cp whitespace_code_points) post ->
  Str.lower core = "q" \/ Str.lower core = "quit" ->
  is_quit (Str.lower (Str.strip (encode pre ++ core ++ encode post))) = true.
Proof.
  intros Hpre Hpost Hq.
  assert (Hp : plain core = true).
  { rewrite <- plain_lower. destruct Hq as [-> | ->]; reflexivity. }
  assert (Hne : core <> "").
  { intros ->. destruct Hq; discriminate. }
  rewrite (@strip_padded pre core post Hpre Hpost Hp Hne).
  unfold is_quit. destruct Hq as [-> | ->]; reflexivity.
Qed.

End MoreNames.

Section MoreQuit.

Context {E : Env}.

(** X15: the letter q or the word quit, in any mix of upper and lower
    case and with any of Python's whitespace characters, ASCII or not,
    typed before and after it, quits at each of the three prompts.  Typed
    at the format prompt it makes the caller print Exiting and raise
    [SystemExit]; so it does typed at the prompt shown when nothing was
    found; typed at the closing prompt it ends the loop of the caller,
    which returns.  No other line passes the test the prompts make. *)
Theorem quit_ignores_case_and_padding
    (pre post : list N) (core : string) (fuel : nat) :
  Forall (fun cp => In cp whitespace_code_points) pre ->
  Forall (fun cp => In cp whitespace_code_points) post ->
  Str.lower core = "q" \/ Str.lower core = "quit" ->
  (forall w rest,
      stdin w = (encode pre ++ core ++ encode post)%string :: rest ->
      main (S fuel) w
      = (World (fs w) rest
               (stdout w ++ [HeaderTitle; HeaderAuthor; Rule; FormatPrompt; Exiting])
               (pil w),
         Raise (SystemExit 0)))
  /\ (forall w w1 w0 fmt rest,
         ask_output_format (printing [HeaderTitle; HeaderAuthor; Rule] w)
         = (w1, Ret fmt) ->
         list_files w1 = (w0, Ret []) ->
         stdin w1 = (encode pre ++ core ++ encode post)%string :: rest ->
         snd (main (S fuel) w) = Raise (SystemExit 0)
         /\ emitted (main (S fuel)) w
            = [HeaderTitle; HeaderAuthor; Rule; FormatPrompt;
               NoIcnsFiles; PressEnterReturn; Exiting])
  /\ (forall w w1 w2 fmt stats rest,
         ask_output_format (printing [HeaderTitle; HeaderAuthor; Rule] w)
         = (w1, Ret fmt) ->
         convert_files w1 = (w2, Ret (Some stats)) ->
         stdin w2 = (encode pre ++ core ++ encode post)%string :: rest ->
         snd (main (S fuel) w) = Ret (Some tt)
         /\ stdin (fst (main (S fuel) w)) = rest
         /\ exists before,
              emitted (main (S fuel)) w
              = before ++ [ReadyNext; PressEnterRestart; Exiting])
  /\ (forall l,
         is_quit (Str.lower (Str.strip l)) = true ->
         exists pre' post' core',
           Forall (fun cp => In cp whitespace_code_points) pre'
           /\ Forall (fun cp => In cp whitespace_code_points) post'
           /\ (Str.lower core' = "q" \/ Str.lower core' = "quit")
           /\ l = (encode pre' ++ core' ++ encode post')%string).
Proof.
  intros Hpre Hpost Hq.
  pose proof (@quit_word_padded pre core post Hpre Hpost Hq) as Hquit.
  split; [|split; [|split]]; cycle 3.
  { intros l Hl. destruct (strip_split l) as (pre' & post' & H1 & H2 & H3).
    exists pre', post', (Str.strip l). repeat split; try assumption.
    unfold is_quit in Hl. apply orb_true_iff in Hl.
    destruct Hl as [Hl|Hl]; apply String.eqb_eq in Hl; auto. }
  - intros w rest Hin. apply main_raise.
    unfold main_turn. unfold bind at 1. rewrite print_header_run.
    unfold ask_output_format, input_choice, input, bind, ret, raise. simpl.
    rewrite Hin, Hquit. simpl. now rewrite <- !app_assoc.
  - intros w w1 w0 fmt rest Hask Hl Hin.
    destruct (list_files_terminal _ Hl) as [Hin0 Hout0].
    pose proof (ask_output_format_returns _ Hask) as Hout1. simpl in Hout1.
    assert (Hrun : convert_files w1
                   = (World (fs w0) rest
                            (stdout w1 ++ [NoIcnsFiles; PressEnterReturn; Exiting])
                            (pil w0),
                      Raise (SystemExit 0))).
    { unfold convert_files, input_choice, input, bind, ret, raise. rewrite Hl.
      simpl. rewrite Hin0, Hin, Hquit, Hout0. simpl. now rewrite <- !app_assoc. }
    assert (Hmt : main_turn w
                  = (World (fs w0) rest
                           (stdout w1 ++ [NoIcnsFiles; PressEnterReturn; Exiting])
                           (pil w0),
                     Raise (SystemExit 0))).
    { rewrite (main_turn_after _ Hask). unfold bind. now rewrite Hrun. }
    rewrite (main_raise fuel _ Hmt). split; [reflexivity|].
    unfold emitted. rewrite (main_raise fuel _ Hmt). simpl.
    rewrite Hout1, <- !app_assoc. apply skipn_length_app.
  - intros w w1 w2 fmt stats rest Hask Hconv Hin.
    pose proof (ask_output_format_returns _ Hask) as Hout1. simpl in Hout1.
    destruct (grows_convert_files w1) as (l2 & Hout2). rewrite Hconv in Hout2.
    simpl in Hout2.
    destruct (after_convert_some_run stats w2) as (ls & Hrun & _).
    assert (Hmt : main_turn w
                  = (World (fs w2) rest
                           (stdout w2 ++ ls ++ [ReadyNext; PressEnterRestart; Exiting])
                           (pil w2),
                     Ret Break)).
    { rewrite (main_turn_after _ Hask). unfold bind at 1. rewrite Hconv, Hrun.
      unfold input_choice, input, bind, ret. simpl. rewrite Hin, Hquit. simpl.
      now rewrite <- !app_assoc. }
    rewrite (main_break fuel _ Hmt). split; [reflexivity|]. split; [reflexivity|].
    exists ([HeaderTitle; HeaderAuthor; Rule; FormatPrompt] ++ l2 ++ ls).
    unfold emitted. rewrite (main_break fuel _ Hmt). simpl.
    rewrite Hout2, Hout1. repeat rewrite <- app_assoc. simpl.
    apply (skipn_length_app (stdout w)).
Qed.

End MoreQuit.

(** ** More runs on the small disks *)

Section MoreRuns.

#[local] Existing Instance Toy.env.

Lemma sample_result_sizes :
  filename (Stat "a.icns" 100 120) = name Toy.a_icns
  /\ st_size Toy.a_icns (fs Toy.start) = Ret (original_size (Stat "a.icns" 100 120))
  /\ st_size (out_path_of Toy.a_icns) (fs (fst (convert_one Toy.a_icns Toy.start)))
     = Ret (converted_size (Stat "a.icns" 100 120))
  /\ exists img,
       image_save img (out_path_of Toy.a_icns) (fs Toy.start)
       = (fs (fst (convert_one Toy.a_icns Toy.start)), Ret tt).
Proof.
  exact (@result_records_sizes_read_from_disk Toy.env Toy.a_icns Toy.start
           (fst (convert_one Toy.a_icns Toy.start)) (Stat "a.icns" 100 120) eq_refl).
Defined.

Lemma sample_order :
  exists w0 files keep,
    list_files Toy.start = (w0, Ret files)
    /\ List.length keep = List.length files
    /\ map filename [Stat "a.icns" 100 120; Stat "b.Icns" 50 40]
       = map name (kept keep files).
Proof.
  refine (@outcome_keeps_discovery_order Toy.env Toy.start
            (fst (convert_files Toy.start))
            [Stat "a.icns" 100 120; Stat "b.Icns" 50 40] _).
  vm_compute. reflexivity.
Defined.

Lemma nothing_found_gives_none :
  exists w0 files,
    list_files Toy.nothing_enter = (w0, Ret files)
    /\ (@None (list stat_entry) = None <-> files = [])
    /\ (files <> [] ->
        stdin (fst (convert_files Toy.nothing_enter)) = stdin Toy.nothing_enter
        /\ exists rest,
             emitted convert_files Toy.nothing_enter
             = Found (List.length files) :: rest).
Proof.
  exact (@none_exactly_when_nothing_found Toy.env Toy.nothing_enter
           (fst (convert_files Toy.nothing_enter)) None eq_refl).
Defined.

Lemma ctrl_c_stops_the_batch :
  for_loop ([Toy.a_icns] ++ Toy.broken :: [Toy.b_icns]) [] Faulty.interrupted
  = (fst (convert_one Toy.broken (fst (for_loop [Toy.a_icns] [] Faulty.interrupted))),
     Raise KeyboardInterrupt)
  /\ stdout (fst (convert_one Toy.broken
                    (fst (for_loop [Toy.a_icns] [] Faulty.interrupted))))
     = stdout (fst (for_loop [Toy.a_icns] [] Faulty.interrupted))
  /\ pil (fst (convert_one Toy.broken
                 (fst (for_loop [Toy.a_icns] [] Faulty.interrupted))))
     = pil (fst (for_loop [Toy.a_icns] [] Faulty.interrupted))
       ++ called (convert_one Toy.broken)
            (fst (for_loop [Toy.a_icns] [] Faulty.interrupted)).
Proof.
  refine (@interrupt_leaves_the_loop Faulty.env [Toy.a_icns] [Toy.b_icns]
            Toy.broken Faulty.interrupted
            (fst (for_loop [Toy.a_icns] [] Faulty.interrupted))
            (fst (convert_one Toy.broken
                    (fst (for_loop [Toy.a_icns] [] Faulty.interrupted))))
            [Stat "a.icns" 100 120] KeyboardInterrupt _ _ _);
    vm_compute; reflexivity.
Defined.

Lemma no_folders_no_summary :
  main_turn Faulty.no_folders
  = (fst (main_turn Faulty.no_folders), Raise (Exception "Permission denied"))
  /\ emitted main_turn Faulty.no_folders
     = [HeaderTitle; HeaderAuthor; Rule; FormatPrompt].
Proof.
  destruct (@error_before_the_loop_ends_the_turn Faulty.env Faulty.no_folders
              (fst (ask_output_format
                      (printing [HeaderTitle; HeaderAuthor; Rule] Faulty.no_folders)))
              (fst (main_turn Faulty.no_folders))
              "png" (Exception "Permission denied") eq_refl eq_refl)
    as (_ & _ & _ & Hturn & Hem).
  split; [exact Hturn|exact Hem].
Defined.

Lemma all_fail_turn_reads_two :
  exists l1 l2,
    stdin Toy.all_fail = l1 :: l2 :: stdin (fst (main_turn Toy.all_fail)).
Proof.
  refine (@turn_reads_two_lines Toy.env Toy.all_fail
            (fst (main_turn Toy.all_fail)) Break _).
  vm_compute. reflexivity.
Defined.

Lemma all_fail_session_ends :
  snd (main 2 Toy.all_fail) <> Ret None.
Proof.
  apply (@main_ends_on_finite_input Toy.env 2 Toy.all_fail).
  vm_compute. lia.
Defined.

Lemma sample_summary_printed :
  main_turn (Toy.boot Toy.sample ["1"; ""])
  = after_convert (Some [Stat "a.icns" 100 120; Stat "b.Icns" 50 40])
      (fst (convert_files
              (fst (ask_output_format
                      (printing [HeaderTitle; HeaderAuthor; Rule]
                                (Toy.boot Toy.sample ["1"; ""]))))))
  /\ emitted main_turn (Toy.boot Toy.sample ["1"; ""])
     = [HeaderTitle; HeaderAuthor; Rule; FormatPrompt; Found 3;
        ErrorLine "broken.ICNS" "cannot identify image file";
        ConversionComplete; Rule; FilesConverted 2; FormatLine; SizeSummary;
        Original 150; Converted 160; Change Up Red 10; Top3Header;
        Top3Entry "a.icns" 100 120 (inject_Z 120 / inject_Z 100)%Q;
        Top3Entry "b.Icns" 50 40 (inject_Z 40 / inject_Z 50)%Q;
        ReadyNext; PressEnterRestart].
Proof.
  destruct (@summary_printed_for_nonempty_outcome Toy.env
              (Toy.boot Toy.sample ["1"; ""])
              (fst (ask_output_format
                      (printing [HeaderTitle; HeaderAuthor; Rule]
                                (Toy.boot Toy.sample ["1"; ""]))))
              (fst (convert_files
                      (fst (ask_output_format
                              (printing [HeaderTitle; HeaderAuthor; Rule]
                                        (Toy.boot Toy.sample ["1"; ""]))))))
              "png" [Stat "a.icns" 100 120; Stat "b.Icns" 50 40])
    as (Hturn & _).
  - vm_compute. reflexivity.
  - vm_compute. reflexivity.
  - discriminate.
  - split; [exact Hturn|]. vm_compute. reflexivity.
Defined.

Lemma five_sorted_by_hand :
  top3_of Toy.five
  = firstn 3 [Stat "e.icns" 0 9; Stat "b.icns" 10 7; Stat "d.icns" 10 7;
              Stat "a.icns" 10 5; Stat "c.icns" 10 5].
Proof.
  apply top3_fixed_by_stable_sort. unfold Toy.five. repeat split.
  - symmetry.
    apply (Permutation_cons_app
             [Stat "e.icns" 0 9; Stat "b.icns" 10 7; Stat "d.icns" 10 7]
             [Stat "c.icns" 10 5]).
    apply (Permutation_cons_app [Stat "e.icns" 0 9]
             [Stat "d.icns" 10 7; Stat "c.icns" 10 5]).
    apply (Permutation_cons_app [Stat "e.icns" 0 9; Stat "d.icns" 10 7] []).
    apply (Permutation_cons_app [Stat "e.icns" 0 9] []).
    reflexivity.
  - unfold descending. repeat constructor; simpl; lia.
  - intros k. unfold with_key. cbn -[Z.eqb].
    destruct (9 =? k) eqn:H9, (7 =? k) eqn:H7, (5 =? k) eqn:H5;
      try reflexivity;
      repeat match goal with
             | H : (_ =? _) = true |- _ => apply Z.eqb_eq in H
             end; lia.
Defined.

Lemma two_results_both_listed :
  Permutation (top3_of [Stat "a.icns" 100 120; Stat "b.Icns" 50 40])
              [Stat "a.icns" 100 120; Stat "b.Icns" 50 40]
  /\ descending converted_size
       (top3_of [Stat "a.icns" 100 120; Stat "b.Icns" 50 40]).
Proof.
  apply top3_of_few_lists_them_all. simpl. lia.
Defined.

Lemma upper_case_extension_same_output :
  out_path_of (Path InputDir "a.ICNS") = Path OutputDir "a.png"
  /\ forall ext', Str.lower ext' = ".icns" ->
                  out_path_of (Path InputDir ("a" ++ ext')%string)
                  = out_path_of (Path InputDir "a.ICNS").
Proof.
  apply (@output_name_replaces_extension InputDir "a" ".ICNS").
  - discriminate.
  - reflexivity.
Defined.

Lemma padded_quit_quits :
  main 1 Sessions.quit_at_once
  = (World (fs Sessions.quit_at_once) []
           [HeaderTitle; HeaderAuthor; Rule; FormatPrompt; Exiting] [],
     Raise (SystemExit 0))
  /\ (snd (main 1 Sessions.nothing_then_quit) = Raise (SystemExit 0)
      /\ emitted (main 1) Sessions.nothing_then_quit
         = [HeaderTitle; HeaderAuthor; Rule; FormatPrompt;
            NoIcnsFiles; PressEnterReturn; Exiting])
  /\ (snd (main 1 Sessions.quit_at_the_end) = Ret (Some tt)
      /\ stdin (fst (main 1 Sessions.quit_at_the_end)) = []).
Proof.
  destruct (@quit_ignores_case_and_padding Toy.env
              [12288; 32]%N [9; 160]%N "QuIt" 0%nat)
    as (Hfirst & Hnone & Hlast & _).
  - repeat constructor; apply in_whitespace; reflexivity.
  - repeat constructor; apply in_whitespace; reflexivity.
  - right. reflexivity.
  - split; [|split].
    + apply (Hfirst Sessions.quit_at_once []). reflexivity.
    + apply (Hnone Sessions.nothing_then_quit
               (fst (ask_output_format
                       (printing [HeaderTitle; HeaderAuthor; Rule]
                                 Sessions.nothing_then_quit)))
               (fst (list_files
                       (fst (ask_output_format
                               (printing [HeaderTitle; HeaderAuthor; Rule]
                                         Sessions.nothing_then_quit)))))
               "png" []); vm_compute; reflexivity.
    + destruct (Hlast Sessions.quit_at_the_end
                  (fst (ask_output_format
                          (printing [HeaderTitle; HeaderAuthor; Rule]
                                    Sessions.quit_at_the_end)))
                  (fst (convert_files
                          (fst (ask_output_format
                                  (printing [HeaderTitle; HeaderAuthor; Rule]
                                            Sessions.quit_at_the_end)))))
                  "png" [Stat "a.icns" 100 120; Stat "b.Icns" 50 40] [])
        as (Hret & Hin & _); try (vm_compute; reflexivity).
      split; [exact Hret|exact Hin].
Defined.

End MoreRuns.

Section MoreAlbumRuns.

#[local] Existing Instance Album.env.

Lemma sample_encoder_input :
  exists img,
    (image_mode img = "RGB" \/ image_mode img = "RGBA")
    /\ Album.saved (fs (fst (convert_one Toy.b_icns Album.start)))
       = [(Path OutputDir "b.png", img)].
Proof.
  destruct (@encoder_receives_rgb_or_rgba Album.env Toy.b_icns Album.start)
    as (Hret & _ & _).
  - intros i m i' H. inversion H. reflexivity.
  - destruct (Hret (fst (convert_one Toy.b_icns Album.start))
                   (Stat "b.Icns" 50 40) eq_refl) as (img & Hm & Hs).
    exists img. split; [exact Hm|].
    apply (f_equal fst) in Hs. cbn [fst] in Hs. rewrite <- Hs. reflexivity.
Defined.

End MoreAlbumRuns.

